(** * DeviceImpl: the per-device core of the link library

    A shallow embedding of [src/device_impl.cpp]: the timeout handler map,
    the heartbeat monitor, the capability (autopilot version) handler, the
    command protocol (fire-and-forget, blocking and callback variants),
    the message handler table with the constructor's registrations, and
    the loop of the device thread. [set_msg_rate] is left out: it divides
    floating point numbers.

    Conventions of the embedding.
    - Integers ([uint8_t] ids, [uint16_t] commands, the [uint64_t] uuid, the
      [MAV_RESULT] code) are [Z]; no operation of this file does arithmetic
      on them, they are only stored and compared.
    - Points in time ([dl_time_t]) and durations are [Z], in microseconds.
      An operation that reads the steady clock takes the reading as its
      argument [now].
    - [const void *cookie] is the address, a [Z].
    - A [std::function] is opaque: it is an identifier ([nat]), [None] is the
      empty function ([nullptr]), and calling it is an [Event] of the trace.
    - Every method is a computation [M A]: it takes the object, and gives
      its return value, the object afterwards and the calls it made to the
      outside (parent, callbacks, debug log), in program order. *)

From Stdlib Require Import String ZArith List Bool Lia.
Import ListNotations.
Open Scope Z_scope.

(** ** Protocol constants (MAVLink common message set) *)

Definition MAV_RESULT_ACCEPTED : Z := 0.
Definition MAV_RESULT_FAILED : Z := 4.
Definition MAV_PROTOCOL_CAPABILITY_MISSION_INT : Z := 4.
Definition MAV_CMD_REQUEST_AUTOPILOT_CAPABILITIES : Z := 520.

(** IEEE-754 binary32 patterns of the two [float] literals of the source. *)
Definition float_1_0 : Z := 0x3F800000.
Definition float_NAN : Z := 0x7FC00000.

(** ** Data *)

Inductive CommandResult : Type :=
| SUCCESS
| NO_DEVICE
| CONNECTION_ERROR
| BUSY
| COMMAND_DENIED
| TIMEOUT.

Inductive CommandState : Type :=
| NONE
| WAITING
| RECEIVED.

Definition CommandResult_eqb (a b : CommandResult) : bool :=
  match a, b with
  | SUCCESS, SUCCESS | NO_DEVICE, NO_DEVICE
  | CONNECTION_ERROR, CONNECTION_ERROR | BUSY, BUSY
  | COMMAND_DENIED, COMMAND_DENIED | TIMEOUT, TIMEOUT => true
  | _, _ => false
  end.

Definition CommandState_eqb (a b : CommandState) : bool :=
  match a, b with
  | NONE, NONE | WAITING, WAITING | RECEIVED, RECEIVED => true
  | _, _ => false
  end.

(** [CommandParams]: the seven [float] parameters, as bit patterns. *)
Record CommandParams : Type := { v : list Z }.

(** A received or packed message: header fields and the raw payload. *)
Record mavlink_message_t : Type := {
  msgid : Z;
  sysid : Z;
  compid : Z;
  payload : list Z
}.

Record mavlink_command_ack_t : Type := {
  command : Z;
  result : Z
}.

Record mavlink_autopilot_version_t : Type := {
  capabilities : Z;
  uid : Z
}.

(** What the code uses and does not define: the message codec of the
    MAVLink headers, the ids of this side ([_own_system_id],
    [_own_component_id] of global_include.h) and the parent's send
    capability ([DroneLinkImpl::send_message]). *)
Class Collaborators : Type := {
  _own_system_id : Z;
  _own_component_id : Z;
  mavlink_msg_command_long_pack :
    Z -> Z -> Z -> Z -> Z -> Z -> list Z -> mavlink_message_t;
  mavlink_msg_command_ack_decode : mavlink_message_t -> mavlink_command_ack_t;
  mavlink_msg_autopilot_version_decode :
    mavlink_message_t -> mavlink_autopilot_version_t;
  parent_send_message : mavlink_message_t -> bool
}.

(** A codec and a link to run the code on concrete inputs: a command is
    packed as message 76 with its fields as payload, an acknowledgement
    carries its result as the second payload item, a capability report its
    capabilities and uid as the first two; the link answers [link_up] to
    every send. *)
Definition loopback (link_up : bool) : Collaborators := {|
  _own_system_id := 255;
  _own_component_id := 190;
  mavlink_msg_command_long_pack := fun sys comp tsys tcomp cmd conf ps =>
    {| msgid := 76; sysid := sys; compid := comp;
       payload := tsys :: tcomp :: cmd :: conf :: ps |};
  mavlink_msg_command_ack_decode := fun m =>
    {| command := nth 0 (payload m) 0; result := nth 1 (payload m) 0 |};
  mavlink_msg_autopilot_version_decode := fun m =>
    {| capabilities := nth 0 (payload m) 0; uid := nth 1 (payload m) 0 |};
  parent_send_message := fun _ => link_up
|}.

Definition ack_message (res : Z) : mavlink_message_t :=
  {| msgid := 77; sysid := 1; compid := 1; payload := [0; res] |}.

Definition version_message (caps id : Z) : mavlink_message_t :=
  {| msgid := 148; sysid := 1; compid := 1; payload := [caps; id] |}.

Definition heartbeat_message (sys comp : Z) : mavlink_message_t :=
  {| msgid := 0; sysid := sys; compid := comp; payload := [] |}.

(** ** The timeout handler map *)

Record TimeoutHandlerMapEntry : Type := {
  time : Z;
  callback : option nat
}.

Module StdMap.

(** Modelled from the spec: the declaration of [_timeout_handler_map] is
    in device_impl.h, which is not among the sources. The code uses it as
    a [std::map] keyed by the cookie ([insert] of a pair, [find], [erase]
    of a key, [it->second]), and the spec describes a registry "mapping
    an owner token to a single pending deadline+callback pair". It is
    taken as [std::map<const void *, TimeoutHandlerMapEntry>]: an
    association list kept in increasing key order, which is the order a
    C++ iterator visits it in. *)
Definition t : Type := list (Z * TimeoutHandlerMapEntry).

Definition empty : t := [].

Fixpoint find (k : Z) (m : t) : option TimeoutHandlerMapEntry :=
  match m with
  | [] => None
  | (k', e) :: m' => if k' =? k then Some e else find k m'
  end.

(** [insert({k, e})]: adds the pair at its place in the order; does
    nothing when the key is already there. *)
Fixpoint insert (k : Z) (e : TimeoutHandlerMapEntry) (m : t) : t :=
  match m with
  | [] => [(k, e)]
  | (k', e') :: m' =>
      if k <? k' then (k, e) :: m
      else if k =? k' then m
      else (k', e') :: insert k e m'
  end.

(** [erase(k)]: removes the elements whose key is [k]. *)
Definition erase (k : Z) (m : t) : t :=
  filter (fun kv => negb (fst kv =? k)) m.

(** [it = find(k); if (it != end()) it->second.time = tm]. *)
Fixpoint set_time (k : Z) (tm : Z) (m : t) : t :=
  match m with
  | [] => []
  | (k', e) :: m' =>
      if k' =? k then (k', {| time := tm; callback := callback e |}) :: m'
      else (k', e) :: set_time k tm m'
  end.

Definition keys (m : t) : list Z := map fst m.

(** The order invariant of the container. *)
Fixpoint ordered (m : t) : bool :=
  match m with
  | [] => true
  | (k, _) :: m' =>
      match m' with
      | [] => true
      | (k', _) :: _ => (k <? k') && ordered m'
      end
  end.

(** How many entries a key has. *)
Definition count (k : Z) (m : t) : nat :=
  length (filter (fun kv => fst kv =? k) m).

End StdMap.

(** ** The object *)

Record DeviceImpl : Type := {
  _timeout_handler_map : StdMap.t;
  _target_system_id : Z;
  _target_component_id : Z;
  _target_uuid : Z;
  _target_supports_mission_int : bool;
  _command_result : Z;
  _command_state : CommandState;
  _command_result_callback : option nat;
  _device_thread : bool;
  _timeout_us : Z;
  _last_heartbeat_received_time : Z;
  _heartbeat_timeout_us : Z;
  _heartbeat_timed_out : bool
}.

(** The constructor; the two defaults come from the header. *)
Definition DeviceImpl_new (DEFAULT_TIMEOUT_US DEFAULT_HEARTBEAT_TIMEOUT_US : Z)
  : DeviceImpl := {|
  _timeout_handler_map := StdMap.empty;
  _target_system_id := 0;
  _target_component_id := 0;
  _target_uuid := 0;
  _target_supports_mission_int := false;
  _command_result := MAV_RESULT_FAILED;
  _command_state := NONE;
  _command_result_callback := None;
  _device_thread := false;
  _timeout_us := DEFAULT_TIMEOUT_US;
  _last_heartbeat_received_time := 0;
  _heartbeat_timeout_us := DEFAULT_HEARTBEAT_TIMEOUT_US;
  _heartbeat_timed_out := false
|}.

(** Field assignments. *)

Definition set_timeout_handler_map (x : StdMap.t) (d : DeviceImpl) :=
  {| _timeout_handler_map := x;
     _target_system_id := _target_system_id d;
     _target_component_id := _target_component_id d;
     _target_uuid := _target_uuid d;
     _target_supports_mission_int := _target_supports_mission_int d;
     _command_result := _command_result d;
     _command_state := _command_state d;
     _command_result_callback := _command_result_callback d;
     _device_thread := _device_thread d;
     _timeout_us := _timeout_us d;
     _last_heartbeat_received_time := _last_heartbeat_received_time d;
     _heartbeat_timeout_us := _heartbeat_timeout_us d;
     _heartbeat_timed_out := _heartbeat_timed_out d |}.

Definition set_target_ids (s c : Z) (d : DeviceImpl) :=
  {| _timeout_handler_map := _timeout_handler_map d;
     _target_system_id := s;
     _target_component_id := c;
     _target_uuid := _target_uuid d;
     _target_supports_mission_int := _target_supports_mission_int d;
     _command_result := _command_result d;
     _command_state := _command_state d;
     _command_result_callback := _command_result_callback d;
     _device_thread := _device_thread d;
     _timeout_us := _timeout_us d;
     _last_heartbeat_received_time := _last_heartbeat_received_time d;
     _heartbeat_timeout_us := _heartbeat_timeout_us d;
     _heartbeat_timed_out := _heartbeat_timed_out d |}.

Definition set_target_uuid (u : Z) (mission_int : bool) (d : DeviceImpl) :=
  {| _timeout_handler_map := _timeout_handler_map d;
     _target_system_id := _target_system_id d;
     _target_component_id := _target_component_id d;
     _target_uuid := u;
     _target_supports_mission_int := mission_int;
     _command_result := _command_result d;
     _command_state := _command_state d;
     _command_result_callback := _command_result_callback d;
     _device_thread := _device_thread d;
     _timeout_us := _timeout_us d;
     _last_heartbeat_received_time := _last_heartbeat_received_time d;
     _heartbeat_timeout_us := _heartbeat_timeout_us d;
     _heartbeat_timed_out := _heartbeat_timed_out d |}.

Definition set_command_result (x : Z) (d : DeviceImpl) :=
  {| _timeout_handler_map := _timeout_handler_map d;
     _target_system_id := _target_system_id d;
     _target_component_id := _target_component_id d;
     _target_uuid := _target_uuid d;
     _target_supports_mission_int := _target_supports_mission_int d;
     _command_result := x;
     _command_state := _command_state d;
     _command_result_callback := _command_result_callback d;
     _device_thread := _device_thread d;
     _timeout_us := _timeout_us d;
     _last_heartbeat_received_time := _last_heartbeat_received_time d;
     _heartbeat_timeout_us := _heartbeat_timeout_us d;
     _heartbeat_timed_out := _heartbeat_timed_out d |}.

Definition set_command_state (x : CommandState) (d : DeviceImpl) :=
  {| _timeout_handler_map := _timeout_handler_map d;
     _target_system_id := _target_system_id d;
     _target_component_id := _target_component_id d;
     _target_uuid := _target_uuid d;
     _target_supports_mission_int := _target_supports_mission_int d;
     _command_result := _command_result d;
     _command_state := x;
     _command_result_callback := _command_result_callback d;
     _device_thread := _device_thread d;
     _timeout_us := _timeout_us d;
     _last_heartbeat_received_time := _last_heartbeat_received_time d;
     _heartbeat_timeout_us := _heartbeat_timeout_us d;
     _heartbeat_timed_out := _heartbeat_timed_out d |}.

Definition set_command_result_callback (x : option nat) (d : DeviceImpl) :=
  {| _timeout_handler_map := _timeout_handler_map d;
     _target_system_id := _target_system_id d;
     _target_component_id := _target_component_id d;
     _target_uuid := _target_uuid d;
     _target_supports_mission_int := _target_supports_mission_int d;
     _command_result := _command_result d;
     _command_state := _command_state d;
     _command_result_callback := x;
     _device_thread := _device_thread d;
     _timeout_us := _timeout_us d;
     _last_heartbeat_received_time := _last_heartbeat_received_time d;
     _heartbeat_timeout_us := _heartbeat_timeout_us d;
     _heartbeat_timed_out := _heartbeat_timed_out d |}.

Definition set_device_thread (x : bool) (d : DeviceImpl) :=
  {| _timeout_handler_map := _timeout_handler_map d;
     _target_system_id := _target_system_id d;
     _target_component_id := _target_component_id d;
     _target_uuid := _target_uuid d;
     _target_supports_mission_int := _target_supports_mission_int d;
     _command_result := _command_result d;
     _command_state := _command_state d;
     _command_result_callback := _command_result_callback d;
     _device_thread := x;
     _timeout_us := _timeout_us d;
     _last_heartbeat_received_time := _last_heartbeat_received_time d;
     _heartbeat_timeout_us := _heartbeat_timeout_us d;
     _heartbeat_timed_out := _heartbeat_timed_out d |}.

Definition set_last_heartbeat_received_time (x : Z) (d : DeviceImpl) :=
  {| _timeout_handler_map := _timeout_handler_map d;
     _target_system_id := _target_system_id d;
     _target_component_id := _target_component_id d;
     _target_uuid := _target_uuid d;
     _target_supports_mission_int := _target_supports_mission_int d;
     _command_result := _command_result d;
     _command_state := _command_state d;
     _command_result_callback := _command_result_callback d;
     _device_thread := _device_thread d;
     _timeout_us := _timeout_us d;
     _last_heartbeat_received_time := x;
     _heartbeat_timeout_us := _heartbeat_timeout_us d;
     _heartbeat_timed_out := _heartbeat_timed_out d |}.

Definition set_heartbeat_timed_out (x : bool) (d : DeviceImpl) :=
  {| _timeout_handler_map := _timeout_handler_map d;
     _target_system_id := _target_system_id d;
     _target_component_id := _target_component_id d;
     _target_uuid := _target_uuid d;
     _target_supports_mission_int := _target_supports_mission_int d;
     _command_result := _command_result d;
     _command_state := _command_state d;
     _command_result_callback := _command_result_callback d;
     _device_thread := _device_thread d;
     _timeout_us := _timeout_us d;
     _last_heartbeat_received_time := _last_heartbeat_received_time d;
     _heartbeat_timeout_us := _heartbeat_timeout_us d;
     _heartbeat_timed_out := x |}.

(** ** Calls to the outside, and the monad of a method body *)

Inductive Event : Type :=
| SendMessage (message : mavlink_message_t)
    (* _parent->send_message(message) *)
| NotifyOnDiscover (uuid : Z)
    (* _parent->notify_on_discover(uuid) *)
| NotifyOnTimeout (uuid : Z)
    (* _parent->notify_on_timeout(uuid) *)
| CommandResultCallback (cb : nat) (r : CommandResult)
    (* callback(result), a command_result_callback_t *)
| TimeoutCallback (cookie : Z) (cb : nat)
    (* callback(), the timeout_handler_t of the entry of cookie *)
| DebugLog (text : string)
    (* Debug() << text *)
| ThreadStart.
    (* new std::thread(device_thread, this) *)

Definition M (A : Type) : Type := DeviceImpl -> A * DeviceImpl * list Event.

Definition ret {A : Type} (a : A) : M A := fun d => (a, d, []).

Definition bind {A B : Type} (m : M A) (k : A -> M B) : M B :=
  fun d =>
    let '(a, d1, e1) := m d in
    let '(b, d2, e2) := k a d1 in
    (b, d2, e1 ++ e2).

Definition get {A : Type} (field : DeviceImpl -> A) : M A :=
  fun d => (field d, d, []).

Definition assign (set : DeviceImpl -> DeviceImpl) : M unit :=
  fun d => (tt, set d, []).

Definition call (e : Event) : M unit := fun d => (tt, d, [e]).

Declare Scope device_scope.
Delimit Scope device_scope with device.
Notation "x <- m ;; k" := (bind m (fun x => k))
  (at level 61, m at next level, right associativity) : device_scope.
Notation "m ;; k" := (bind m (fun _ => k))
  (at level 61, right associativity) : device_scope.
Open Scope device_scope.

(** Projections of a run. *)
Definition value {A : Type} (r : A * DeviceImpl * list Event) : A := fst (fst r).
Definition after {A : Type} (r : A * DeviceImpl * list Event) : DeviceImpl :=
  snd (fst r).
Definition trace {A : Type} (r : A * DeviceImpl * list Event) : list Event :=
  snd r.

(** Running a method on each item of a list, one after the other. *)
Fixpoint for_each {A : Type} (f : A -> M unit) (xs : list A) : M unit :=
  match xs with
  | [] => ret tt
  | x :: xs' => f x ;; for_each f xs'
  end.

(** When the dispatch thread handles acknowledgements while the caller of
    [send_command_with_ack] is inside the call: those handled between the
    send and the first test of the wait loop, and those handled during the
    [usleep] of each iteration. A handler runs to its end between two
    reads of the waiting thread. *)
Record Arrivals : Type := {
  before_wait : list mavlink_message_t;
  during_sleep : nat -> list mavlink_message_t
}.

Definition no_arrivals : Arrivals :=
  {| before_wait := []; during_sleep := fun _ => [] |}.

(** ** The methods *)

Section Device.

Context {env : Collaborators}.

Definition send_message (message : mavlink_message_t) : M bool :=
  call (SendMessage message) ;;
  ret (parent_send_message message).

Definition report_result (callback : option nat) (result : CommandResult)
  : M unit :=
  match callback with
  | None => ret tt
  | Some cb => call (CommandResultCallback cb result)
  end.

(** *** Timeout handlers *)

Definition register_timeout_handler (now : Z) (callback : option nat)
  (cookie : Z) : M unit :=
  timeout <- get _timeout_us ;;
  let future_time := now + timeout in
  let entry := {| time := future_time; callback := callback |} in
  m <- get _timeout_handler_map ;;
  assign (set_timeout_handler_map (StdMap.insert cookie entry m)).

Definition update_timeout_handler (now : Z) (cookie : Z) : M unit :=
  m <- get _timeout_handler_map ;;
  match StdMap.find cookie m with
  | Some _ =>
      timeout <- get _timeout_us ;;
      let future_time := now + timeout in
      assign (set_timeout_handler_map (StdMap.set_time cookie future_time m))
  | None => ret tt
  end.

Definition unregister_timeout_handler (cookie : Z) : M unit :=
  m <- get _timeout_handler_map ;;
  match StdMap.find cookie m with
  | Some _ => assign (set_timeout_handler_map (StdMap.erase cookie m))
  | None => ret tt
  end.

(** The loop of [check_timeouts]: the first entry, in iteration order,
    whose time is before [now] is erased and the scan stops there. *)
Fixpoint take_expired (now : Z) (m : StdMap.t)
  : option (Z * TimeoutHandlerMapEntry) * StdMap.t :=
  match m with
  | [] => (None, [])
  | (cookie, e) :: m' =>
      if time e <? now then (Some (cookie, e), m')
      else
        let '(found, rest) := take_expired now m' in
        (found, (cookie, e) :: rest)
  end.

Definition check_timeouts (now : Z) : M unit :=
  m <- get _timeout_handler_map ;;
  let '(found, rest) := take_expired now m in
  assign (set_timeout_handler_map rest) ;;
  match found with
  | Some (cookie, e) =>
      match callback e with
      | Some cb => call (TimeoutCallback cookie cb)
      | None => ret tt
      end
  | None => ret tt
  end.

(** *** Commands *)

Definition send_command (command : Z) (params : CommandParams)
  : M CommandResult :=
  target_system <- get _target_system_id ;;
  target_component <- get _target_component_id ;;
  if (target_system =? 0) && (target_component =? 0) then ret NO_DEVICE
  else
    let message :=
      mavlink_msg_command_long_pack _own_system_id _own_component_id
        target_system target_component command 0 (v params) in
    sent <- send_message message ;;
    if negb sent then ret CONNECTION_ERROR else ret SUCCESS.

Definition request_autopilot_version : M unit :=
  send_command MAV_CMD_REQUEST_AUTOPILOT_CAPABILITIES
    {| v := [float_1_0; float_NAN; float_NAN; float_NAN;
             float_NAN; float_NAN; float_NAN] |} ;;
  ret tt.

Definition process_command_ack (message : mavlink_message_t) : M unit :=
  let command_ack := mavlink_msg_command_ack_decode message in
  state <- get _command_state ;;
  if CommandState_eqb state WAITING then
    assign (set_command_result (result command_ack)) ;;
    assign (set_command_state RECEIVED) ;;
    res <- get _command_result ;;
    cb <- get _command_result_callback ;;
    (if res =? MAV_RESULT_ACCEPTED then
       match cb with
       | Some _ => report_result cb SUCCESS
       | None => ret tt
       end
     else
       match cb with
       | Some _ => report_result cb SUCCESS
       | None => ret tt
       end) ;;
    assign (set_command_result_callback None)
  else ret tt.

(** The wait loop of [send_command_with_ack]; [i] is the loop counter
    and [remaining] is [iterations - i]. *)
Fixpoint wait_for_result (arrivals : Arrivals) (remaining : nat) (i : nat)
  : M unit :=
  match remaining with
  | O => ret tt
  | S remaining' =>
      state <- get _command_state ;;
      if CommandState_eqb state RECEIVED then ret tt
      else
        for_each process_command_ack (during_sleep arrivals i) ;;
        wait_for_result arrivals remaining' (S i)
  end.

Definition send_command_with_ack (arrivals : Arrivals) (command : Z)
  (params : CommandParams) : M CommandResult :=
  state <- get _command_state ;;
  if CommandState_eqb state WAITING then ret BUSY
  else
    assign (set_command_result_callback None) ;;
    assign (set_command_state WAITING) ;;
    r <- send_command command params ;;
    if negb (CommandResult_eqb r SUCCESS) then ret r
    else
      timeout_us <- get _timeout_us ;;
      let wait_time_us := 1000 in
      let iterations := Z.to_nat (timeout_us / wait_time_us) in
      for_each process_command_ack (before_wait arrivals) ;;
      wait_for_result arrivals iterations 0 ;;
      state <- get _command_state ;;
      if negb (CommandState_eqb state RECEIVED) then
        assign (set_command_state NONE) ;;
        ret TIMEOUT
      else
        assign (set_command_state NONE) ;;
        res <- get _command_result ;;
        if negb (res =? MAV_RESULT_ACCEPTED) then ret COMMAND_DENIED
        else ret SUCCESS.

Definition send_command_with_ack_async (command : Z)
  (params : CommandParams) (callback : option nat) : M unit :=
  state <- get _command_state ;;
  (if CommandState_eqb state WAITING then report_result callback BUSY
   else ret tt) ;;
  r <- send_command command params ;;
  if negb (CommandResult_eqb r SUCCESS) then
    report_result callback r ;;
    assign (set_command_state NONE)
  else
    (match callback with
     | None => call (DebugLog "Callback is null")
     | Some _ => ret tt
     end) ;;
    assign (set_command_state WAITING) ;;
    assign (set_command_result_callback callback).

(** *** Heartbeats and the capability report *)

Definition check_device_thread : M unit :=
  running <- get _device_thread ;;
  if negb running then
    call ThreadStart ;;
    assign (set_device_thread true)
  else ret tt.

Definition process_heartbeat (now : Z) (message : mavlink_message_t)
  : M unit :=
  target_system <- get _target_system_id ;;
  (if target_system =? 0 then
     assign (set_target_ids (sysid message) (compid message))
   else ret tt) ;;
  uuid <- get _target_uuid ;;
  (if uuid =? 0 then request_autopilot_version else ret tt) ;;
  check_device_thread ;;
  assign (set_last_heartbeat_received_time now) ;;
  assign (set_heartbeat_timed_out false).

Definition process_autopilot_version (message : mavlink_message_t)
  : M unit :=
  let autopilot_version := mavlink_msg_autopilot_version_decode message in
  uuid <- get _target_uuid ;;
  if uuid =? 0 then
    assign (set_target_uuid (uid autopilot_version)
              (negb (Z.land (capabilities autopilot_version)
                       MAV_PROTOCOL_CAPABILITY_MISSION_INT =? 0))) ;;
    uuid' <- get _target_uuid ;;
    call (NotifyOnDiscover uuid')
  else if negb (uuid =? uid autopilot_version) then
    call (DebugLog "Error: UUID changed")
  else ret tt.

Definition check_heartbeat_timeout (now : Z) : M unit :=
  last <- get _last_heartbeat_received_time ;;
  heartbeat_timeout <- get _heartbeat_timeout_us ;;
  if now - last >? heartbeat_timeout then
    timed_out <- get _heartbeat_timed_out ;;
    if negb timed_out then
      uuid <- get _target_uuid ;;
      call (NotifyOnTimeout uuid) ;;
      assign (set_heartbeat_timed_out true)
    else ret tt
  else ret tt.

(** *** Runs of several calls *)

Definition process_heartbeats (hs : list (Z * mavlink_message_t)) : M unit :=
  for_each (fun h => process_heartbeat (fst h) (snd h)) hs.

Definition process_autopilot_versions (ms : list mavlink_message_t)
  : M unit :=
  for_each process_autopilot_version ms.

Definition check_heartbeat_timeouts (nows : list Z) : M unit :=
  for_each check_heartbeat_timeout nows.

(** Calls on the timeout handlers, by their users and by the device
    thread, in the order the mutex serialises them. *)
Inductive TimeoutCall : Type :=
| Register (now : Z) (callback : option nat) (cookie : Z)
| Update (now : Z) (cookie : Z)
| Unregister (cookie : Z)
| Check (now : Z).

Definition timeout_call (c : TimeoutCall) : M unit :=
  match c with
  | Register now callback cookie =>
      register_timeout_handler now callback cookie
  | Update now cookie => update_timeout_handler now cookie
  | Unregister cookie => unregister_timeout_handler cookie
  | Check now => check_timeouts now
  end.

Definition run_timeout_calls (cs : list TimeoutCall) : M unit :=
  for_each timeout_call cs.

(** How many of the calls register [cookie]. *)
Fixpoint registrations (cookie : Z) (cs : list TimeoutCall) : nat :=
  match cs with
  | [] => O
  | Register _ _ k :: cs' =>
      ((if (k =? cookie)%Z then 1 else 0) + registrations cookie cs')%nat
  | _ :: cs' => registrations cookie cs'
  end.

(** *** Abbreviations used in the statements *)

(** The three assignments of [process_command_ack] when it takes an
    acknowledgement. *)
Definition acknowledged (message : mavlink_message_t) (d : DeviceImpl)
  : DeviceImpl :=
  set_command_result_callback None
    (set_command_state RECEIVED
       (set_command_result
          (result (mavlink_msg_command_ack_decode message)) d)).

(** The message that [send_command] packs. *)
Definition command_message (command : Z) (params : CommandParams)
  (d : DeviceImpl) : mavlink_message_t :=
  mavlink_msg_command_long_pack _own_system_id _own_component_id
    (_target_system_id d) (_target_component_id d) command 0 (v params).

(** The test of [send_command] for a target that is not known yet. *)
Definition no_device (d : DeviceImpl) : bool :=
  (_target_system_id d =? 0) && (_target_component_id d =? 0).

End Device.

(** ** Reading a trace *)

(** The timeout callbacks of [cookie] that a trace calls, in order. *)
Fixpoint fired (cookie : Z) (es : list Event) : list nat :=
  match es with
  | [] => []
  | TimeoutCallback c cb :: es' =>
      if c =? cookie then cb :: fired cookie es'
      else fired cookie es'
  | _ :: es' => fired cookie es'
  end.

(** The command result callbacks that a trace calls, in order. *)
Fixpoint reported (es : list Event) : list (nat * CommandResult) :=
  match es with
  | [] => []
  | CommandResultCallback cb r :: es' => (cb, r) :: reported es'
  | _ :: es' => reported es'
  end.

(** The acknowledgements that the dispatch thread handles up to the end of
    a wait of [iterations] iterations, in order. *)
Definition arrived (arrivals : Arrivals) (iterations : nat)
  : list mavlink_message_t :=
  before_wait arrivals
    ++ concat (map (during_sleep arrivals) (seq 0 iterations)).

(** ** The handler table, the constructor and the device thread *)

Definition MAVLINK_MSG_ID_HEARTBEAT : Z := 0.
Definition MAVLINK_MSG_ID_COMMAND_ACK : Z := 77.
Definition MAVLINK_MSG_ID_AUTOPILOT_VERSION : Z := 148.
Definition MAV_TYPE_GCS : Z := 6.

(** [_mavlink_handler_table], a [std::vector] of entries. It is a member
    that no method above reads or writes, so it is kept beside the record
    [DeviceImpl] and passed to the methods that use it. *)
Module HandlerTable.

(** A [mavlink_message_handler_t]: one of the three methods that the
    constructor binds to the object, or a function of another owner, which
    is opaque and known by an identifier. *)
Inductive mavlink_message_handler_t : Type :=
| bound_process_heartbeat
| bound_process_command_ack
| bound_process_autopilot_version
| other_handler (id : nat).

Record MavlinkHandlerTableEntry : Type := {
  msg_id : Z;
  callback : mavlink_message_handler_t;
  cookie : Z
}.

Definition t : Type := list MavlinkHandlerTableEntry.

Definition register_mavlink_message_handler (id : Z)
  (cb : mavlink_message_handler_t) (c : Z) (table : t) : t :=
  let entry := {| msg_id := id; callback := cb; cookie := c |} in
  table ++ [entry].

(** The loop over the table that erases at the iterator or steps it. *)
Fixpoint unregister_all_mavlink_message_handlers (c : Z) (table : t) : t :=
  match table with
  | [] => []
  | entry :: rest =>
      if cookie entry =? c
      then unregister_all_mavlink_message_handlers c rest
      else entry :: unregister_all_mavlink_message_handlers c rest
  end.

(** What a dispatch does to the outside: the calls of the bound methods,
    and the calls of the handlers of other owners. *)
Inductive Called : Type :=
| ByDevice (e : Event)
| OtherHandler (id : nat) (message : mavlink_message_t).

(** The handlers of other owners that a dispatch calls, in order. *)
Fixpoint other_calls (cs : list Called) : list (nat * mavlink_message_t) :=
  match cs with
  | [] => []
  | OtherHandler id message :: cs' => (id, message) :: other_calls cs'
  | ByDevice _ :: cs' => other_calls cs'
  end.

End HandlerTable.

(** [mavlink_msg_heartbeat_pack] of the MAVLink headers: system id,
    component id, type, autopilot, base mode, custom mode, system status. *)
Class HeartbeatCodec : Type := {
  mavlink_msg_heartbeat_pack :
    Z -> Z -> Z -> Z -> Z -> Z -> Z -> mavlink_message_t
}.

Definition loopback_heartbeat : HeartbeatCodec := {|
  mavlink_msg_heartbeat_pack := fun sys comp type autopilot base custom status =>
    {| msgid := 0; sysid := sys; compid := comp;
       payload := [type; autopilot; base; custom; status] |}
|}.

(** What one iteration of the loop of [device_thread] reads from outside
    the object: the flag [_should_exit], which the destructor sets from
    another thread, and the steady clock, in [check_timeouts] and in
    [check_heartbeat_timeout]. *)
Record Tick : Type := {
  should_exit : bool;
  timeouts_now : Z;
  heartbeat_now : Z
}.

Section DeviceThread.

Context {env : Collaborators} {hb : HeartbeatCodec}.

Import HandlerTable.

(** The constructor's three registrations; [this] is the cookie. *)
Definition DeviceImpl_handlers (this : Z) : HandlerTable.t :=
  register_mavlink_message_handler MAVLINK_MSG_ID_AUTOPILOT_VERSION
    bound_process_autopilot_version this
    (register_mavlink_message_handler MAVLINK_MSG_ID_COMMAND_ACK
       bound_process_command_ack this
       (register_mavlink_message_handler MAVLINK_MSG_ID_HEARTBEAT
          bound_process_heartbeat this [])).

(** [it->callback(message)]; [process_heartbeat] reads the clock. *)
Definition call_handler (h : mavlink_message_handler_t) (now : Z)
  (message : mavlink_message_t) (d : DeviceImpl)
  : DeviceImpl * list Called :=
  match h with
  | bound_process_heartbeat =>
      let r := process_heartbeat now message d in
      (after r, map ByDevice (trace r))
  | bound_process_command_ack =>
      let r := process_command_ack message d in
      (after r, map ByDevice (trace r))
  | bound_process_autopilot_version =>
      let r := process_autopilot_version message d in
      (after r, map ByDevice (trace r))
  | other_handler id => (d, [OtherHandler id message])
  end.

Fixpoint process_mavlink_message (table : HandlerTable.t) (now : Z)
  (message : mavlink_message_t) (d : DeviceImpl)
  : DeviceImpl * list Called :=
  match table with
  | [] => (d, [])
  | entry :: rest =>
      if HandlerTable.msg_id entry =? msgid message then
        let '(d1, e1) :=
          call_handler (HandlerTable.callback entry) now message d in
        let '(d2, e2) := process_mavlink_message rest now message d1 in
        (d2, e1 ++ e2)
      else process_mavlink_message rest now message d
  end.

(** *** The device thread *)

Definition heartbeat_interval_us : Z := 1000000.
Definition timeout_interval_us : Z := 10000.
Definition heartbeat_multiplier : Z :=
  heartbeat_interval_us / timeout_interval_us.

Definition send_heartbeat : M unit :=
  let message :=
    mavlink_msg_heartbeat_pack _own_system_id _own_component_id
      MAV_TYPE_GCS 0 0 0 0 in
  send_message message ;;
  ret tt.

(** The body of the loop; [counter] is an [unsigned] of 32 bits, and the
    value returned is the counter after [counter++]. *)
Definition device_thread_iteration (counter : Z) (t : Tick) : M Z :=
  (if counter mod heartbeat_multiplier =? 0 then send_heartbeat
   else ret tt) ;;
  check_timeouts (timeouts_now t) ;;
  check_heartbeat_timeout (heartbeat_now t) ;;
  ret ((counter + 1) mod 2 ^ 32).

(** The loop, over the iterations that the thread gets to start: it ends
    at the first one that reads [_should_exit] as true. *)
Fixpoint device_thread_loop (ticks : list Tick) (counter : Z) : M Z :=
  match ticks with
  | [] => ret counter
  | t :: ticks' =>
      if should_exit t then ret counter
      else
        counter' <- device_thread_iteration counter t ;;
        device_thread_loop ticks' counter'
  end.

Definition device_thread (ticks : list Tick) : M Z :=
  device_thread_loop ticks 0.

End DeviceThread.

(** The messages that a trace sends, in order. *)
Fixpoint sent (es : list Event) : list mavlink_message_t :=
  match es with
  | [] => []
  | SendMessage m :: es' => m :: sent es'
  | _ :: es' => sent es'
  end.

(** How often a trace starts the device thread. *)
Fixpoint thread_starts (es : list Event) : nat :=
  match es with
  | [] => O
  | ThreadStart :: es' => S (thread_starts es')
  | _ :: es' => thread_starts es'
  end.

(** The discovery notifications of a trace, in order. *)
Fixpoint discoveries (es : list Event) : list Z :=
  match es with
  | [] => []
  | NotifyOnDiscover u :: es' => u :: discoveries es'
  | _ :: es' => discoveries es'
  end.

(** The entries of a timeout handler map whose time is before [now], and
    the calls of their callbacks. *)
Definition expired (now : Z) (m : StdMap.t) : StdMap.t :=
  filter (fun kv => time (snd kv) <? now) m.

Definition unexpired (now : Z) (m : StdMap.t) : StdMap.t :=
  filter (fun kv => negb (time (snd kv) <? now)) m.

Fixpoint timeout_callbacks (m : StdMap.t) : list Event :=
  match m with
  | [] => []
  | (cookie, e) :: m' =>
      match callback e with
      | Some cb => TimeoutCallback cookie cb :: timeout_callbacks m'
      | None => timeout_callbacks m'
      end
  end.

(** How many of the [n] values of the loop counter from [counter] on are
    multiples of [heartbeat_multiplier]. *)
Fixpoint heartbeats_due (counter : Z) (n : nat) : nat :=
  match n with
  | O => O
  | S n' =>
      ((if (counter mod heartbeat_multiplier =? 0)%Z then 1 else 0)
       + heartbeats_due (counter + 1)%Z n')%nat
  end.

(** ** Concrete objects *)

(** A new device (timeout 0.5 s, heartbeat timeout 3 s), and the same once
    a heartbeat of system 1, component 1 has set the target ids. *)
Definition fresh : DeviceImpl := DeviceImpl_new 500000 3000000.

Definition paired : DeviceImpl := set_target_ids 1 1 fresh.

(** [set_msg_rate(30, 2.0)]: message id 30.0f, interval 500000.0f. *)
Definition rate_params : CommandParams :=
  {| v := [0x41F00000; 0x48F42400; float_NAN; float_NAN; float_NAN;
           float_NAN; float_NAN] |}.

Definition MAV_CMD_SET_MESSAGE_INTERVAL : Z := 511.

(** Two handlers, both already expired at time 100. *)
Definition two_expired : DeviceImpl :=
  set_timeout_handler_map
    [(1, {| time := 10; callback := Some 5%nat |});
     (2, {| time := 20; callback := Some 6%nat |})] fresh.

(** * Properties *)

Ltac run_body :=
  cbv beta delta [bind get assign call ret value after trace] in *;
  simpl in *.

Section DeviceFacts.

Context {env : Collaborators}.

(** ** The monad *)

Lemma bind_run {A B : Type} (m : M A) (k : A -> M B) (d : DeviceImpl) :
  bind m k d =
  (value (k (value (m d)) (after (m d))),
   after (k (value (m d)) (after (m d))),
   trace (m d) ++ trace (k (value (m d)) (after (m d)))).
Proof.
  unfold bind, value, after, trace.
  destruct (m d) as [[a d1] e1]; simpl.
  destruct (k a d1) as [[b d2] e2]; reflexivity.
Qed.

Lemma for_each_cons {A : Type} (f : A -> M unit) (x : A) (xs : list A)
  (d : DeviceImpl) :
  for_each f (x :: xs) d =
  (tt, after (for_each f xs (after (f x d))),
   trace (f x d) ++ trace (for_each f xs (after (f x d)))).
Proof.
  simpl. rewrite bind_run.
  destruct (for_each f xs (after (f x d))) as [[[] d2] e2]; reflexivity.
Qed.

Lemma for_each_cons_after {A : Type} (f : A -> M unit) (x : A)
  (xs : list A) (d : DeviceImpl) :
  after (for_each f (x :: xs) d) = after (for_each f xs (after (f x d))).
Proof. now rewrite for_each_cons. Qed.

Lemma for_each_cons_trace {A : Type} (f : A -> M unit) (x : A)
  (xs : list A) (d : DeviceImpl) :
  trace (for_each f (x :: xs) d) =
  trace (f x d) ++ trace (for_each f xs (after (f x d))).
Proof. now rewrite for_each_cons. Qed.

Lemma for_each_app {A : Type} (f : A -> M unit) (xs ys : list A)
  (d : DeviceImpl) :
  for_each f (xs ++ ys) d =
  (tt, after (for_each f ys (after (for_each f xs d))),
   trace (for_each f xs d) ++ trace (for_each f ys (after (for_each f xs d)))).
Proof.
  revert d; induction xs as [|x xs IH]; intro d.
  - unfold after, trace; simpl.
    destruct (for_each f ys d) as [[[] d2] e2]; reflexivity.
  - rewrite <- app_comm_cons, !for_each_cons, IH.
    unfold after, trace; simpl. now rewrite app_assoc.
Qed.

(** ** send_command *)

Lemma send_command_no_device (command : Z) (params : CommandParams)
  (d : DeviceImpl) :
  _target_system_id d = 0 -> _target_component_id d = 0 ->
  send_command command params d = (NO_DEVICE, d, []).
Proof.
  intros Hs Hc. unfold send_command. run_body.
  now rewrite Hs, Hc.
Qed.

Lemma send_command_known (command : Z) (params : CommandParams)
  (d : DeviceImpl) :
  ~ (_target_system_id d = 0 /\ _target_component_id d = 0) ->
  let message :=
    mavlink_msg_command_long_pack _own_system_id _own_component_id
      (_target_system_id d) (_target_component_id d) command 0 (v params) in
  send_command command params d =
  (if parent_send_message message then SUCCESS else CONNECTION_ERROR,
   d, [SendMessage message]).
Proof.
  intros Hid message. unfold send_command, send_message. run_body.
  destruct (_target_system_id d =? 0) eqn:Es;
    destruct (_target_component_id d =? 0) eqn:Ec; simpl;
    try (apply Z.eqb_eq in Es; apply Z.eqb_eq in Ec; tauto);
    fold message; destruct (parent_send_message message); reflexivity.
Qed.

(** The command state, result and callback play no part in
    [send_command]. *)
Lemma send_command_frame (command : Z) (params : CommandParams)
  (d : DeviceImpl) (f : DeviceImpl -> DeviceImpl) :
  _target_system_id (f d) = _target_system_id d ->
  _target_component_id (f d) = _target_component_id d ->
  send_command command params (f d) =
  (value (send_command command params d), f d,
   trace (send_command command params d)).
Proof.
  intros Hs Hc. unfold send_command, send_message. run_body.
  rewrite Hs, Hc.
  destruct ((_target_system_id d =? 0) && (_target_component_id d =? 0));
    [reflexivity|].
  match goal with |- context [parent_send_message ?m] =>
    destruct (parent_send_message m) end; reflexivity.
Qed.

(** C7. [send_command] returns NO_DEVICE, sending nothing, when the target
    system and component ids are both still unset (zero); otherwise it
    sends exactly one command message, addressed to the target, and
    returns CONNECTION_ERROR exactly when the parent's send fails and
    SUCCESS otherwise. In every case the object, and so the command
    state, the result and the pending callback, is left as it was. *)
Theorem send_command_outcome (command : Z) (params : CommandParams)
  (d : DeviceImpl) :
  let r := send_command command params d in
  let message :=
    mavlink_msg_command_long_pack _own_system_id _own_component_id
      (_target_system_id d) (_target_component_id d) command 0 (v params) in
  (_target_system_id d = 0 /\ _target_component_id d = 0 ->
     value r = NO_DEVICE /\ trace r = [])
  /\ (~ (_target_system_id d = 0 /\ _target_component_id d = 0) ->
     trace r = [SendMessage message]
     /\ (value r = CONNECTION_ERROR <-> parent_send_message message = false)
     /\ (value r = SUCCESS <-> parent_send_message message = true))
  /\ after r = d
  /\ _command_state (after r) = _command_state d
  /\ _command_result (after r) = _command_result d
  /\ _command_result_callback (after r) = _command_result_callback d.
Proof.
  intros r message.
  assert (Hafter : after r = d).
  { subst r. unfold send_command, send_message. run_body.
    destruct ((_target_system_id d =? 0) && (_target_component_id d =? 0));
      [reflexivity|].
    match goal with |- context [parent_send_message ?m] =>
      destruct (parent_send_message m) end; reflexivity. }
  repeat split; try (rewrite Hafter; reflexivity).
  - destruct H as [Hs Hc]. subst r.
    now rewrite (send_command_no_device _ _ _ Hs Hc).
  - destruct H as [Hs Hc]. subst r.
    now rewrite (send_command_no_device _ _ _ Hs Hc).
  - subst r. now rewrite (send_command_known _ _ _ H).
  - subst r. rewrite (send_command_known _ _ _ H). fold message.
    unfold value; simpl.
    destruct (parent_send_message message); [discriminate|reflexivity].
  - subst r. rewrite (send_command_known _ _ _ H). fold message.
    unfold value; simpl. intros ->. reflexivity.
  - subst r. rewrite (send_command_known _ _ _ H). fold message.
    unfold value; simpl.
    destruct (parent_send_message message); [reflexivity|discriminate].
  - subst r. rewrite (send_command_known _ _ _ H). fold message.
    unfold value; simpl. intros ->. reflexivity.
Qed.

End DeviceFacts.

Section CommandFacts.

Context {env : Collaborators}.

(** ** process_command_ack *)

Lemma process_command_ack_ignored (message : mavlink_message_t)
  (d : DeviceImpl) :
  _command_state d <> WAITING ->
  process_command_ack message d = (tt, d, []).
Proof.
  intro Hst. unfold process_command_ack. run_body.
  destruct (_command_state d); simpl; congruence.
Qed.

Lemma process_command_ack_taken (message : mavlink_message_t)
  (d : DeviceImpl) :
  _command_state d = WAITING ->
  process_command_ack message d =
  (tt, acknowledged message d,
   match _command_result_callback d with
   | Some cb => [CommandResultCallback cb SUCCESS]
   | None => []
   end).
Proof.
  intro Hst. unfold process_command_ack, report_result, acknowledged.
  run_body. rewrite Hst; simpl.
  destruct (result (mavlink_msg_command_ack_decode message)
              =? MAV_RESULT_ACCEPTED);
    destruct (_command_result_callback d); reflexivity.
Qed.

Lemma acks_ignored (ms : list mavlink_message_t) (d : DeviceImpl) :
  _command_state d <> WAITING ->
  for_each process_command_ack ms d = (tt, d, []).
Proof.
  intro Hst. induction ms as [|m ms IH]; [reflexivity|].
  rewrite for_each_cons, (process_command_ack_ignored m d Hst).
  unfold after, trace; simpl. now rewrite IH.
Qed.

Lemma acks_taken (ms : list mavlink_message_t) (d : DeviceImpl) :
  _command_state d = WAITING ->
  _command_result_callback d = None ->
  for_each process_command_ack ms d =
  (tt, match ms with [] => d | m :: _ => acknowledged m d end, []).
Proof.
  intros Hst Hcb. destruct ms as [|m ms]; [reflexivity|].
  rewrite for_each_cons, (process_command_ack_taken m d Hst), Hcb.
  unfold after, trace; simpl.
  rewrite acks_ignored; [reflexivity | simpl; discriminate].
Qed.

(** ** The wait loop *)

Lemma wait_for_result_received (arrivals : Arrivals) (remaining i : nat)
  (d : DeviceImpl) :
  _command_state d = RECEIVED ->
  wait_for_result arrivals remaining i d = (tt, d, []).
Proof.
  intro Hst. destruct remaining; [reflexivity|].
  simpl. run_body. now rewrite Hst.
Qed.

Lemma wait_for_result_step (arrivals : Arrivals) (remaining i : nat)
  (d : DeviceImpl) :
  _command_state d <> RECEIVED ->
  let slept := for_each process_command_ack (during_sleep arrivals i) d in
  wait_for_result arrivals (S remaining) i d =
  (tt, after (wait_for_result arrivals remaining (S i) (after slept)),
   trace slept
     ++ trace (wait_for_result arrivals remaining (S i) (after slept))).
Proof.
  intros Hst slept. cbn [wait_for_result].
  unfold bind at 1. unfold get.
  destruct (CommandState_eqb (_command_state d) RECEIVED) eqn:E.
  - destruct (_command_state d); simpl in E; congruence.
  - rewrite bind_run. fold slept.
    destruct (wait_for_result arrivals remaining (S i) (after slept))
      as [[[] d2] e2]; reflexivity.
Qed.

Lemma wait_for_result_waiting (arrivals : Arrivals) (remaining : nat) :
  forall (i : nat) (d : DeviceImpl),
  _command_state d = WAITING ->
  _command_result_callback d = None ->
  wait_for_result arrivals remaining i d =
  (tt,
   match concat (map (during_sleep arrivals) (seq i remaining)) with
   | [] => d
   | m :: _ => acknowledged m d
   end, []).
Proof.
  induction remaining as [|n IH]; intros i d Hst Hcb; [reflexivity|].
  rewrite wait_for_result_step by congruence.
  rewrite (acks_taken _ d Hst Hcb).
  cbn [seq map concat]. unfold after at 2 3, trace at 1; cbn [fst snd app].
  destruct (during_sleep arrivals i) as [|m ms]; cbn [app].
  - rewrite (IH (S i) d Hst Hcb). reflexivity.
  - rewrite wait_for_result_received by reflexivity. reflexivity.
Qed.

End CommandFacts.

Section BlockingFacts.

Context {env : Collaborators}.

Lemma send_command_with_ack_sent (arrivals : Arrivals) (command : Z)
  (params : CommandParams) (d : DeviceImpl) :
  _command_state d <> WAITING ->
  value (send_command command params d) = SUCCESS ->
  let d1 := set_command_state WAITING (set_command_result_callback None d) in
  let iterations := Z.to_nat (_timeout_us d / 1000) in
  send_command_with_ack arrivals command params d =
  match hd_error (arrived arrivals iterations) with
  | None =>
      (TIMEOUT, set_command_state NONE d1,
       trace (send_command command params d))
  | Some m =>
      (if result (mavlink_msg_command_ack_decode m) =? MAV_RESULT_ACCEPTED
       then SUCCESS else COMMAND_DENIED,
       set_command_state NONE (acknowledged m d1),
       trace (send_command command params d))
  end.
Proof.
  intros Hst Hsent d1 iterations.
  unfold send_command_with_ack.
  cbv beta iota delta [bind get assign ret].
  destruct (CommandState_eqb (_command_state d) WAITING) eqn:E.
  { destruct (_command_state d); simpl in E; congruence. }
  rewrite (send_command_frame command params d
             (fun d => set_command_state WAITING
                         (set_command_result_callback None d)))
    by reflexivity.
  fold d1. rewrite Hsent. cbn [CommandResult_eqb negb].
  rewrite (acks_taken (before_wait arrivals) d1) by reflexivity.
  change (_timeout_us d1) with (_timeout_us d). fold iterations.
  unfold arrived.
  destruct (before_wait arrivals) as [|m ms]; cbn [app hd_error].
  - rewrite wait_for_result_waiting by reflexivity.
    destruct (concat (map (during_sleep arrivals) (seq 0 iterations)))
      as [|m ms]; cbn [hd_error].
    + cbn. now rewrite app_nil_r.
    + cbn.
      destruct (result (mavlink_msg_command_ack_decode m)
                  =? MAV_RESULT_ACCEPTED);
        cbn; now rewrite app_nil_r.
  - rewrite wait_for_result_received by reflexivity.
    cbn.
    destruct (result (mavlink_msg_command_ack_decode m)
                =? MAV_RESULT_ACCEPTED);
      cbn; now rewrite app_nil_r.
Qed.

Lemma send_command_value (command : Z) (params : CommandParams)
  (d : DeviceImpl) :
  send_command command params d =
  if no_device d then (NO_DEVICE, d, [])
  else
    (if parent_send_message (command_message command params d)
     then SUCCESS else CONNECTION_ERROR,
     d, [SendMessage (command_message command params d)]).
Proof.
  unfold no_device, command_message.
  destruct (_target_system_id d =? 0) eqn:Es;
    destruct (_target_component_id d =? 0) eqn:Ec; cbn [andb];
    try (apply send_command_known; intros [Hs Hc];
         rewrite ?Hs, ?Hc in *; discriminate).
  apply send_command_no_device; now apply Z.eqb_eq.
Qed.

Lemma send_command_with_ack_busy (arrivals : Arrivals) (command : Z)
  (params : CommandParams) (d : DeviceImpl) :
  _command_state d = WAITING ->
  send_command_with_ack arrivals command params d = (BUSY, d, []).
Proof.
  intro Hst. unfold send_command_with_ack.
  cbv beta iota delta [bind get assign ret]. now rewrite Hst.
Qed.

Lemma send_command_with_ack_unsent (arrivals : Arrivals) (command : Z)
  (params : CommandParams) (d : DeviceImpl) :
  _command_state d <> WAITING ->
  value (send_command command params d) <> SUCCESS ->
  send_command_with_ack arrivals command params d =
  (value (send_command command params d),
   set_command_state WAITING (set_command_result_callback None d),
   trace (send_command command params d)).
Proof.
  intros Hst Hfail. unfold send_command_with_ack.
  cbv beta iota delta [bind get assign ret].
  destruct (CommandState_eqb (_command_state d) WAITING) eqn:E.
  { destruct (_command_state d); simpl in E; congruence. }
  rewrite (send_command_frame command params d
             (fun d => set_command_state WAITING
                         (set_command_result_callback None d)))
    by reflexivity.
  destruct (value (send_command command params d));
    try congruence; cbn; now rewrite app_nil_r.
Qed.

(** What the blocking call returns when an acknowledgement is handled
    within its wait: the first one decides. *)
Lemma send_command_with_ack_acknowledged (arrivals : Arrivals)
  (command : Z) (params : CommandParams) (d : DeviceImpl)
  (m : mavlink_message_t) :
  _command_state d <> WAITING ->
  value (send_command command params d) = SUCCESS ->
  hd_error (arrived arrivals (Z.to_nat (_timeout_us d / 1000))) = Some m ->
  value (send_command_with_ack arrivals command params d) =
  if result (mavlink_msg_command_ack_decode m) =? MAV_RESULT_ACCEPTED
  then SUCCESS else COMMAND_DENIED.
Proof.
  intros Hst Hsent Hm.
  rewrite (send_command_with_ack_sent arrivals command params d Hst Hsent).
  cbv zeta. rewrite Hm. reflexivity.
Qed.

(** After a call whose send failed, the next call finds the device busy
    and sends nothing. *)
Lemma send_command_with_ack_busy_after_failed_send
  (arrivals arrivals' : Arrivals) (command command' : Z)
  (params params' : CommandParams) (d : DeviceImpl) :
  _command_state d <> WAITING ->
  value (send_command command params d) <> SUCCESS ->
  send_command_with_ack arrivals' command' params'
    (after (send_command_with_ack arrivals command params d))
  = (BUSY, after (send_command_with_ack arrivals command params d), []).
Proof.
  intros Hst Hfail. apply send_command_with_ack_busy.
  now rewrite send_command_with_ack_unsent.
Qed.

(** C1. A call of [send_command_with_ack] that passes the busy test
    leaves the command state NONE when it returns SUCCESS,
    COMMAND_DENIED or TIMEOUT, but leaves it WAITING when it returns
    NO_DEVICE (target unknown) or CONNECTION_ERROR (send failed): on
    these two paths the function returns without the reset. *)
Theorem send_command_with_ack_state_on_return (arrivals : Arrivals)
  (command : Z) (params : CommandParams) (d : DeviceImpl) :
  _command_state d <> WAITING ->
  let r := send_command_with_ack arrivals command params d in
  match value r with
  | SUCCESS | COMMAND_DENIED | TIMEOUT => _command_state (after r) = NONE
  | NO_DEVICE | CONNECTION_ERROR => _command_state (after r) = WAITING
  | BUSY => False
  end
  /\ (no_device d = true -> value r = NO_DEVICE)
  /\ (no_device d = false ->
      parent_send_message (command_message command params d) = false ->
      value r = CONNECTION_ERROR).
Proof.
  intros Hst r. subst r.
  pose proof (send_command_value command params d) as Hv.
  destruct (no_device d) eqn:Hn.
  - rewrite send_command_with_ack_unsent by (rewrite ?Hv; easy).
    rewrite Hv. cbn. repeat split; easy.
  - destruct (parent_send_message (command_message command params d))
      eqn:Hl.
    + rewrite send_command_with_ack_sent by (rewrite ?Hv; easy).
      cbv zeta.
      destruct (hd_error _) as [m|];
        [destruct (result (mavlink_msg_command_ack_decode m)
                     =? MAV_RESULT_ACCEPTED)|];
        cbn; repeat split; easy.
    + rewrite send_command_with_ack_unsent by (rewrite ?Hv; easy).
      rewrite Hv. cbn. repeat split; easy.
Qed.

(** C10. A call of [send_command_with_ack] that passes the busy test
    clears the pending result callback before it sends: whatever
    callback an earlier [send_command_with_ack_async] left, and whatever
    acknowledgements are handled during the call, no command result
    callback is called; the only call to the outside is the send of the
    command, and no callback is pending when the call returns. *)
Theorem send_command_with_ack_calls_no_callback (arrivals : Arrivals)
  (command : Z) (params : CommandParams) (d : DeviceImpl) :
  _command_state d <> WAITING ->
  let r := send_command_with_ack arrivals command params d in
  trace r =
    (if no_device d then []
     else [SendMessage (command_message command params d)])
  /\ reported (trace r) = []
  /\ _command_result_callback (after r) = None.
Proof.
  intros Hst r. subst r.
  pose proof (send_command_value command params d) as Hv.
  destruct (no_device d) eqn:Hn.
  - rewrite send_command_with_ack_unsent by (rewrite ?Hv; easy).
    rewrite Hv. cbn. repeat split; easy.
  - destruct (parent_send_message (command_message command params d))
      eqn:Hl.
    + rewrite send_command_with_ack_sent by (rewrite ?Hv; easy).
      cbv zeta. rewrite Hv.
      destruct (hd_error _) as [m|]; cbn; repeat split; easy.
    + rewrite send_command_with_ack_unsent by (rewrite ?Hv; easy).
      rewrite Hv. cbn. repeat split; easy.
Qed.

(** C2. An acknowledgement handled in state WAITING whose result is not
    MAV_RESULT_ACCEPTED makes [process_command_ack] call the pending
    result callback with SUCCESS: both branches of the test on the
    result report SUCCESS. (The state becomes RECEIVED, the result is
    stored and the callback is cleared, as for an accepted one.) *)
Theorem process_command_ack_denied_reports_success
  (message : mavlink_message_t) (cb : nat) (d : DeviceImpl) :
  _command_state d = WAITING ->
  _command_result_callback d = Some cb ->
  result (mavlink_msg_command_ack_decode message) <> MAV_RESULT_ACCEPTED ->
  let r := process_command_ack message d in
  trace r = [CommandResultCallback cb SUCCESS]
  /\ _command_state (after r) = RECEIVED
  /\ _command_result (after r)
     = result (mavlink_msg_command_ack_decode message)
  /\ _command_result_callback (after r) = None.
Proof.
  intros Hst Hcb _ r. subst r.
  rewrite (process_command_ack_taken message d Hst), Hcb.
  repeat split.
Qed.

(** C3. Called in state WAITING with a known target,
    [send_command_with_ack_async] reports BUSY to the callback and then
    goes on: it sends the command and, when the send succeeds, stores
    the new callback over the pending one; when the send fails it
    reports CONNECTION_ERROR as well and sets the state to NONE. *)
Theorem send_command_with_ack_async_busy_still_sends (command : Z)
  (params : CommandParams) (cb : nat) (d : DeviceImpl) :
  _command_state d = WAITING ->
  no_device d = false ->
  let message := command_message command params d in
  let r := send_command_with_ack_async command params (Some cb) d in
  trace r =
    [CommandResultCallback cb BUSY; SendMessage message]
      ++ (if parent_send_message message then []
          else [CommandResultCallback cb CONNECTION_ERROR])
  /\ after r =
     if parent_send_message message
     then set_command_result_callback (Some cb)
            (set_command_state WAITING d)
     else set_command_state NONE d.
Proof.
  intros Hst Hn message r. subst r.
  unfold send_command_with_ack_async, report_result.
  cbv beta iota delta [bind get assign ret call].
  rewrite Hst. cbn [CommandState_eqb].
  rewrite (send_command_value command params d), Hn. fold message.
  destruct (parent_send_message message); cbn; split; reflexivity.
Qed.

End BlockingFacts.

(** ** The timeout handler map *)

Module StdMapFacts.

Import StdMap.

Lemma ordered_cons (k : Z) (e : TimeoutHandlerMapEntry) (m : t) :
  ordered ((k, e) :: m) = true <->
  (forall k', In k' (keys m) -> k < k') /\ ordered m = true.
Proof.
  destruct m as [|[k1 e1] m].
  - simpl. split; [intros _; split; [intros ? []|reflexivity]|reflexivity].
  - change (ordered ((k, e) :: (k1, e1) :: m))
      with ((k <? k1) && ordered ((k1, e1) :: m)).
    rewrite andb_true_iff, Z.ltb_lt. split.
    + intros [Hlt Hord]. split; [|exact Hord].
      revert k1 e1 Hlt Hord.
      induction m as [|[k2 e2] m IH]; intros k1 e1 Hlt Hord k' Hin.
      * destruct Hin as [<-|[]]. exact Hlt.
      * destruct Hin as [<-|Hin]; [exact Hlt|].
        change (ordered ((k1, e1) :: (k2, e2) :: m))
          with ((k1 <? k2) && ordered ((k2, e2) :: m)) in Hord.
        apply andb_true_iff in Hord. destruct Hord as [H12 Hord].
        apply Z.ltb_lt in H12.
        apply (IH k2 e2); [lia|exact Hord|exact Hin].
    + intros [Hall Hord]. split; [|exact Hord].
      apply Hall. now left.
Qed.

Lemma find_none (k : Z) (m : t) :
  find k m = None <-> ~ In k (keys m).
Proof.
  induction m as [|[k1 e1] m IH]; simpl.
  - split; [intros _ []|reflexivity].
  - destruct (k1 =? k) eqn:E.
    + apply Z.eqb_eq in E. split; [discriminate|]. intros H. elim H. now left.
    + apply Z.eqb_neq in E. rewrite IH. tauto.
Qed.

Lemma find_some_in (k : Z) (e : TimeoutHandlerMapEntry) (m : t) :
  find k m = Some e -> In k (keys m).
Proof.
  intro H. destruct (in_dec Z.eq_dec k (keys m)) as [Hin|Hout]; [exact Hin|].
  apply find_none in Hout. congruence.
Qed.

Lemma count_zero (k : Z) (m : t) :
  count k m = O <-> ~ In k (keys m).
Proof.
  unfold count. induction m as [|[k1 e1] m IH]; simpl.
  - split; [intros _ []|reflexivity].
  - destruct (k1 =? k) eqn:E; simpl.
    + apply Z.eqb_eq in E. split; [discriminate|]. intros H. elim H. now left.
    + apply Z.eqb_neq in E. rewrite IH. tauto.
Qed.

Lemma ordered_count (k : Z) (m : t) :
  ordered m = true -> (count k m <= 1)%nat.
Proof.
  induction m as [|[k1 e1] m IH]; intro Hord; [unfold count; simpl; lia|].
  apply ordered_cons in Hord. destruct Hord as [Hall Hord].
  unfold count in *. simpl. destruct (k1 =? k) eqn:E; simpl.
  - apply Z.eqb_eq in E. subst k1.
    assert (Hz : count k m = O).
    { apply count_zero. intro Hin. specialize (Hall k Hin). lia. }
    unfold count in Hz. rewrite Hz. lia.
  - now apply IH.
Qed.

(** *** insert *)

Lemma keys_insert (k : Z) (e : TimeoutHandlerMapEntry) (m : t) (k' : Z) :
  In k' (keys (insert k e m)) <-> k' = k \/ In k' (keys m).
Proof.
  induction m as [|[k1 e1] m IH]; simpl.
  - intuition.
  - destruct (k <? k1) eqn:E1; [simpl; intuition|].
    destruct (k =? k1) eqn:E2; simpl.
    + apply Z.eqb_eq in E2. subst. intuition.
    + rewrite IH. intuition.
Qed.

Lemma ordered_insert (k : Z) (e : TimeoutHandlerMapEntry) (m : t) :
  ordered m = true -> ordered (insert k e m) = true.
Proof.
  induction m as [|[k1 e1] m IH]; intro Hord; [reflexivity|].
  cbn [insert].
  destruct (k <? k1) eqn:E1.
  - apply Z.ltb_lt in E1. apply ordered_cons. split; [|exact Hord].
    apply ordered_cons in Hord. destruct Hord as [Hall _].
    intros k' [<-|Hin]; [exact E1|]. specialize (Hall k' Hin). lia.
  - destruct (k =? k1) eqn:E2; [exact Hord|].
    apply Z.ltb_ge in E1. apply Z.eqb_neq in E2.
    apply ordered_cons in Hord. destruct Hord as [Hall Hord].
    apply ordered_cons. split; [|now apply IH].
    intros k' Hin. apply keys_insert in Hin.
    destruct Hin as [->|Hin]; [lia|now apply Hall].
Qed.

Lemma insert_present (k : Z) (e e0 : TimeoutHandlerMapEntry) (m : t) :
  ordered m = true -> find k m = Some e0 -> insert k e m = m.
Proof.
  induction m as [|[k1 e1] m IH]; intros Hord Hfind; [discriminate|].
  cbn [insert find] in *.
  apply ordered_cons in Hord. destruct Hord as [Hall Hord].
  destruct (k1 =? k) eqn:E.
  - apply Z.eqb_eq in E. subst k1.
    now rewrite Z.ltb_irrefl, Z.eqb_refl.
  - apply Z.eqb_neq in E.
    pose proof (Hall k (find_some_in _ _ _ Hfind)) as Hlt.
    destruct (k <? k1) eqn:E1; [apply Z.ltb_lt in E1; lia|].
    destruct (k =? k1) eqn:E2; [reflexivity|].
    now rewrite IH.
Qed.

Lemma find_insert_absent (k : Z) (e : TimeoutHandlerMapEntry) (m : t) :
  find k m = None -> find k (insert k e m) = Some e.
Proof.
  induction m as [|[k1 e1] m IH]; intro Hfind; cbn [insert find] in *.
  - now rewrite Z.eqb_refl.
  - destruct (k1 =? k) eqn:E; [discriminate|].
    destruct (k <? k1); [cbn [find]; now rewrite Z.eqb_refl|].
    rewrite Z.eqb_sym, E. cbn [find]. rewrite E. now apply IH.
Qed.

Lemma find_insert_other (k k' : Z) (e : TimeoutHandlerMapEntry) (m : t) :
  k' <> k -> find k' (insert k e m) = find k' m.
Proof.
  intro Hne. induction m as [|[k1 e1] m IH]; cbn [insert find].
  - destruct (k =? k') eqn:E; [apply Z.eqb_eq in E; congruence|reflexivity].
  - destruct (k <? k1).
    + cbn [find].
      destruct (k =? k') eqn:E; [apply Z.eqb_eq in E; congruence|reflexivity].
    + destruct (k =? k1); [reflexivity|]. cbn [find]. now rewrite IH.
Qed.

Lemma count_insert (k c : Z) (e : TimeoutHandlerMapEntry) (m : t) :
  (count c (insert k e m) <= count c m + (if (k =? c)%Z then 1 else 0))%nat.
Proof.
  unfold count. induction m as [|[k1 e1] m IH]; cbn [insert].
  - simpl. destruct (k =? c); simpl; lia.
  - destruct (k <? k1).
    + cbn [filter fst]. destruct (k =? c); cbn [length]; lia.
    + destruct (k =? k1); [lia|].
      cbn [filter fst]. destruct (k1 =? c); cbn [length]; lia.
Qed.

(** *** set_time *)

Lemma keys_set_time (k tm : Z) (m : t) :
  keys (set_time k tm m) = keys m.
Proof.
  induction m as [|[k1 e1] m IH]; [reflexivity|].
  cbn [set_time]. destruct (k1 =? k); unfold keys in *; cbn [map fst];
    [reflexivity|]. now rewrite IH.
Qed.

Lemma ordered_keys (m m' : t) :
  keys m' = keys m -> ordered m = true -> ordered m' = true.
Proof.
  revert m'. induction m as [|[k1 e1] m IH]; intros [|[k2 e2] m'] Hk Hord;
    try discriminate; [reflexivity|].
  simpl in Hk. injection Hk as -> Hk.
  apply ordered_cons in Hord. destruct Hord as [Hall Hord].
  apply ordered_cons. unfold keys in *. rewrite Hk.
  split; [exact Hall|]. now apply IH.
Qed.

Lemma count_keys (c : Z) (m m' : t) :
  keys m' = keys m -> count c m' = count c m.
Proof.
  unfold count, keys.
  revert m'. induction m as [|[k1 e1] m IH]; intros [|[k2 e2] m'] Hk;
    try discriminate; [reflexivity|].
  simpl in Hk. injection Hk as -> Hk. simpl.
  destruct (k1 =? c); simpl; now rewrite (IH m' Hk).
Qed.

Lemma find_set_time (k tm : Z) (e0 : TimeoutHandlerMapEntry) (m : t) :
  find k m = Some e0 ->
  find k (set_time k tm m) = Some {| time := tm; callback := callback e0 |}.
Proof.
  induction m as [|[k1 e1] m IH]; intro Hfind; [discriminate|].
  cbn [set_time find] in *.
  destruct (k1 =? k) eqn:E; cbn [find]; rewrite E.
  - now injection Hfind as ->.
  - now apply IH.
Qed.

Lemma find_set_time_other (k k' tm : Z) (m : t) :
  k' <> k -> find k' (set_time k tm m) = find k' m.
Proof.
  intro Hne. induction m as [|[k1 e1] m IH]; [reflexivity|].
  cbn [set_time find].
  destruct (k1 =? k) eqn:E; cbn [find].
  - apply Z.eqb_eq in E. subst k1.
    destruct (k =? k') eqn:E'; [apply Z.eqb_eq in E'; congruence|].
    reflexivity.
  - now rewrite IH.
Qed.

(** *** erase *)

Lemma keys_erase (k k' : Z) (m : t) :
  In k' (keys (erase k m)) <-> k' <> k /\ In k' (keys m).
Proof.
  unfold erase, keys. rewrite !in_map_iff. split.
  - intros [[k1 e1] [<- Hin]]. apply filter_In in Hin.
    destruct Hin as [Hin Hne]. simpl in *.
    apply negb_true_iff, Z.eqb_neq in Hne.
    split; [exact Hne|]. now exists (k1, e1).
  - intros [Hne [[k1 e1] [<- Hin]]]. exists (k1, e1). split; [reflexivity|].
    apply filter_In. split; [exact Hin|].
    simpl in *. now apply negb_true_iff, Z.eqb_neq.
Qed.

Lemma ordered_erase (k : Z) (m : t) :
  ordered m = true -> ordered (erase k m) = true.
Proof.
  induction m as [|[k1 e1] m IH]; intro Hord; [reflexivity|].
  apply ordered_cons in Hord. destruct Hord as [Hall Hord].
  unfold erase in *. cbn [filter fst].
  destruct (negb (k1 =? k)); [|now apply IH].
  apply ordered_cons. split; [|now apply IH].
  intros k' Hin. apply Hall.
  apply (keys_erase k k' m) in Hin. tauto.
Qed.

Lemma find_erase (k : Z) (m : t) : find k (erase k m) = None.
Proof.
  apply find_none. intro Hin. apply keys_erase in Hin. tauto.
Qed.

Lemma count_erase (k c : Z) (m : t) :
  (count c (erase k m) <= count c m)%nat.
Proof.
  unfold count, erase. induction m as [|[k1 e1] m IH]; [simpl; lia|].
  cbn [filter fst].
  destruct (negb (k1 =? k)); cbn [filter fst];
    destruct (k1 =? c); cbn [length]; lia.
Qed.

Lemma erase_absent (k : Z) (m : t) :
  find k m = None -> erase k m = m.
Proof.
  unfold erase. induction m as [|[k1 e1] m IH]; intro Hfind; [reflexivity|].
  cbn [find filter fst] in *.
  destruct (k1 =? k); [discriminate|]. cbn [negb]. now rewrite IH.
Qed.

Lemma erase_head (k : Z) (e : TimeoutHandlerMapEntry) (m : t) :
  ordered ((k, e) :: m) = true -> erase k ((k, e) :: m) = m.
Proof.
  intro Hord. apply ordered_cons in Hord. destruct Hord as [Hall _].
  unfold erase. cbn [filter fst]. rewrite Z.eqb_refl. cbn [negb].
  apply erase_absent, find_none.
  intro Hin. specialize (Hall k Hin). lia.
Qed.

End StdMapFacts.

Section TimeoutFacts.

Context {env : Collaborators}.

Import StdMap StdMapFacts.

(** *** The scan of check_timeouts *)

Lemma take_expired_none (now : Z) (m : StdMap.t) :
  fst (take_expired now m) = None ->
  snd (take_expired now m) = m
  /\ Forall (fun kv => now <= time (snd kv)) m.
Proof.
  induction m as [|[k1 e1] m IH]; cbn [take_expired]; [now split|].
  destruct (time e1 <? now) eqn:E; [discriminate|].
  apply Z.ltb_ge in E.
  destruct (take_expired now m) as [found rest]; cbn [fst snd] in *.
  intro Hnone. destruct (IH Hnone) as [-> Hall].
  split; [reflexivity|]. constructor; assumption.
Qed.

Lemma take_expired_some (now : Z) (m : StdMap.t) (cookie : Z)
  (e : TimeoutHandlerMapEntry) :
  ordered m = true ->
  fst (take_expired now m) = Some (cookie, e) ->
  find cookie m = Some e
  /\ time e < now
  /\ (forall k' e', find k' m = Some e' -> time e' < now -> cookie <= k')
  /\ snd (take_expired now m) = erase cookie m
  /\ S (length (snd (take_expired now m))) = length m.
Proof.
  induction m as [|[k1 e1] m IH]; cbn [take_expired]; [discriminate|].
  intros Hord. pose proof Hord as Hord0.
  apply ordered_cons in Hord. destruct Hord as [Hall Hord].
  destruct (time e1 <? now) eqn:E; cbn [fst snd].
  - apply Z.ltb_lt in E. intros [= <- <-].
    cbn [find]. rewrite Z.eqb_refl.
    repeat split; try assumption.
    + intros k' e' Hfind _. destruct (k1 =? k') eqn:E'.
      * apply Z.eqb_eq in E'. lia.
      * apply find_some_in in Hfind. specialize (Hall k' Hfind). lia.
    + symmetry. now apply erase_head.
  - apply Z.ltb_ge in E.
    destruct (take_expired now m) as [found rest]; cbn [fst snd] in *.
    intro Hsome. destruct (IH Hord Hsome) as (Hf & Ht & Hmin & Hrest & Hlen).
    pose proof (Hall cookie (find_some_in _ _ _ Hf)) as Hlt.
    assert (Hne : (k1 =? cookie) = false) by (apply Z.eqb_neq; lia).
    cbn [find]. rewrite Hne.
    repeat split; try assumption.
    + intros k' e' Hfind Hexp. destruct (k1 =? k') eqn:E'.
      * injection Hfind as <-. lia.
      * now apply (Hmin k' e').
    + unfold erase in *. cbn [filter fst]. rewrite Hne. cbn [negb].
      now rewrite Hrest.
    + cbn [length]. now rewrite Hlen.
Qed.

Lemma take_expired_count (now : Z) (m : StdMap.t) (c : Z) :
  count c m =
  (count c (snd (take_expired now m))
   + match fst (take_expired now m) with
     | Some (k, _) => if (k =? c)%Z then 1 else 0
     | None => 0
     end)%nat.
Proof.
  unfold count. induction m as [|[k1 e1] m IH]; cbn [take_expired];
    [reflexivity|].
  destruct (time e1 <? now); cbn [fst snd filter].
  - destruct (k1 =? c); cbn [length]; lia.
  - destruct (take_expired now m) as [found rest]; cbn [fst snd filter] in *.
    destruct (k1 =? c); cbn [length]; lia.
Qed.

Lemma take_expired_ordered (now : Z) (m : StdMap.t) :
  ordered m = true -> ordered (snd (take_expired now m)) = true.
Proof.
  intro Hord. destruct (fst (take_expired now m)) as [[k e]|] eqn:E.
  - destruct (take_expired_some now m k e Hord E) as (_ & _ & _ & -> & _).
    now apply ordered_erase.
  - destruct (take_expired_none now m E) as [-> _]. exact Hord.
Qed.

(** *** What each method does to the map *)

Lemma register_timeout_handler_run (now : Z) (cb : option nat) (cookie : Z)
  (d : DeviceImpl) :
  register_timeout_handler now cb cookie d =
  (tt,
   set_timeout_handler_map
     (insert cookie {| time := now + _timeout_us d; callback := cb |}
        (_timeout_handler_map d)) d,
   []).
Proof. reflexivity. Qed.

Lemma update_timeout_handler_run (now : Z) (cookie : Z) (d : DeviceImpl) :
  update_timeout_handler now cookie d =
  (tt,
   match find cookie (_timeout_handler_map d) with
   | Some _ =>
       set_timeout_handler_map
         (set_time cookie (now + _timeout_us d) (_timeout_handler_map d)) d
   | None => d
   end, []).
Proof.
  unfold update_timeout_handler. cbv beta iota delta [bind get assign ret].
  destruct (find cookie (_timeout_handler_map d)); reflexivity.
Qed.

Lemma unregister_timeout_handler_run (cookie : Z) (d : DeviceImpl) :
  unregister_timeout_handler cookie d =
  (tt,
   match find cookie (_timeout_handler_map d) with
   | Some _ =>
       set_timeout_handler_map (erase cookie (_timeout_handler_map d)) d
   | None => d
   end, []).
Proof.
  unfold unregister_timeout_handler.
  cbv beta iota delta [bind get assign ret].
  destruct (find cookie (_timeout_handler_map d)); reflexivity.
Qed.

Lemma unregister_timeout_handler_map (cookie : Z) (d : DeviceImpl) :
  _timeout_handler_map (after (unregister_timeout_handler cookie d))
  = erase cookie (_timeout_handler_map d).
Proof.
  rewrite unregister_timeout_handler_run. unfold after; cbn [fst snd].
  destruct (find cookie (_timeout_handler_map d)) eqn:E; [reflexivity|].
  symmetry. now apply erase_absent.
Qed.

Lemma check_timeouts_run (now : Z) (d : DeviceImpl) :
  check_timeouts now d =
  (tt,
   set_timeout_handler_map
     (snd (take_expired now (_timeout_handler_map d))) d,
   match fst (take_expired now (_timeout_handler_map d)) with
   | Some (cookie, e) =>
       match callback e with
       | Some cb => [TimeoutCallback cookie cb]
       | None => []
       end
   | None => []
   end).
Proof.
  unfold check_timeouts. cbv beta iota delta [bind get assign ret call].
  destruct (take_expired now (_timeout_handler_map d)) as [[[k e]|] rest];
    cbn [fst snd]; [destruct (callback e)|]; reflexivity.
Qed.

Lemma timeout_call_ordered (c : TimeoutCall) (d : DeviceImpl) :
  ordered (_timeout_handler_map d) = true ->
  ordered (_timeout_handler_map (after (timeout_call c d))) = true.
Proof.
  intro Hord. destruct c as [now cb k|now k|k|now]; cbn [timeout_call].
  - rewrite register_timeout_handler_run. now apply ordered_insert.
  - rewrite update_timeout_handler_run. unfold after; cbn [fst snd].
    destruct (find k (_timeout_handler_map d)); [|exact Hord].
    apply (ordered_keys (_timeout_handler_map d)); [|exact Hord].
    apply keys_set_time.
  - rewrite unregister_timeout_handler_map. now apply ordered_erase.
  - rewrite check_timeouts_run. now apply take_expired_ordered.
Qed.

Lemma fired_app (cookie : Z) (es es' : list Event) :
  fired cookie (es ++ es') = fired cookie es ++ fired cookie es'.
Proof.
  induction es as [|e es IH]; [reflexivity|].
  destruct e; cbn [app fired]; try exact IH.
  destruct (cookie0 =? cookie); cbn [app]; now rewrite IH.
Qed.

(** A cookie is called back at most as often as it has entries in the
    map and registrations among the calls. *)
Lemma fired_bound (cookie : Z) (cs : list TimeoutCall) :
  forall d : DeviceImpl,
  (length (fired cookie (trace (run_timeout_calls cs d)))
   <= count cookie (_timeout_handler_map d) + registrations cookie cs)%nat.
Proof.
  unfold run_timeout_calls.
  induction cs as [|c cs IH]; intro d; [cbn; lia|].
  rewrite for_each_cons. unfold trace at 1; cbn [snd].
  rewrite fired_app, length_app.
  specialize (IH (after (timeout_call c d))).
  destruct c as [now cb k|now k|k|now]; cbn [timeout_call registrations] in *.
  - rewrite register_timeout_handler_run in *.
    unfold after, trace in *; cbn [fst snd fired length] in *.
    pose proof (count_insert k cookie
                  {| time := now + _timeout_us d; callback := cb |}
                  (_timeout_handler_map d)).
    cbn [_timeout_handler_map set_timeout_handler_map] in IH.
    destruct (k =? cookie); lia.
  - rewrite update_timeout_handler_run in *.
    unfold after, trace in *; cbn [fst snd fired length] in *.
    destruct (find k (_timeout_handler_map d)); [|lia].
    cbn [_timeout_handler_map set_timeout_handler_map] in IH.
    rewrite (count_keys cookie (_timeout_handler_map d)) in IH
      by apply keys_set_time.
    lia.
  - rewrite unregister_timeout_handler_map in IH.
    assert (Ht : trace (unregister_timeout_handler k d) = [])
      by (now rewrite unregister_timeout_handler_run).
    rewrite Ht. cbn [fired length].
    pose proof (count_erase k cookie (_timeout_handler_map d)). lia.
  - rewrite check_timeouts_run in *.
    unfold after, trace in *; cbn [fst snd] in *.
    cbn [_timeout_handler_map set_timeout_handler_map] in IH.
    pose proof (take_expired_count now (_timeout_handler_map d) cookie) as Hc.
    destruct (fst (take_expired now (_timeout_handler_map d)))
      as [[k e]|]; [|cbn [fired length]; lia].
    destruct (callback e); cbn [fired length];
      destruct (k =? cookie); cbn [length]; lia.
Qed.

(** The order invariant holds in a new device and after every run of
    calls. *)
Lemma run_timeout_calls_ordered (cs : list TimeoutCall) :
  forall d : DeviceImpl,
  ordered (_timeout_handler_map d) = true ->
  ordered (_timeout_handler_map (after (run_timeout_calls cs d))) = true.
Proof.
  unfold run_timeout_calls.
  induction cs as [|c cs IH]; intros d Hord; [exact Hord|].
  rewrite for_each_cons_after. apply IH. now apply timeout_call_ordered.
Qed.

Lemma DeviceImpl_new_ordered (timeout_us heartbeat_timeout_us : Z)
  (cs : list TimeoutCall) :
  ordered
    (_timeout_handler_map
       (after (run_timeout_calls cs
                 (DeviceImpl_new timeout_us heartbeat_timeout_us)))) = true.
Proof. now apply run_timeout_calls_ordered. Qed.

(** C4 (as the code has it). The map holds at most one entry per cookie,
    and the two methods keep it so. [register_timeout_handler] for a
    cookie that has an entry leaves the map as it is, the old time and
    callback included; for a cookie without one it adds the entry with
    the time [now + _timeout_us]. [update_timeout_handler] for a cookie
    that has an entry sets its time to [now + _timeout_us], keeps its
    callback and adds no entry; for a cookie without one it does
    nothing. Entries of other cookies are not touched. *)
Theorem timeout_handler_one_entry_per_cookie (now : Z) (cb : option nat)
  (cookie : Z) (d : DeviceImpl) :
  ordered (_timeout_handler_map d) = true ->
  let m := _timeout_handler_map d in
  let registered :=
    _timeout_handler_map (after (register_timeout_handler now cb cookie d)) in
  let updated :=
    _timeout_handler_map (after (update_timeout_handler now cookie d)) in
  (forall k, (count k m <= 1)%nat
             /\ (count k registered <= 1)%nat
             /\ (count k updated <= 1)%nat)
  /\ match find cookie m with
     | Some e =>
         registered = m
         /\ find cookie updated =
            Some {| time := now + _timeout_us d; callback := callback e |}
         /\ keys updated = keys m
     | None =>
         find cookie registered =
         Some {| time := now + _timeout_us d; callback := cb |}
         /\ updated = m
     end
  /\ (forall k, k <> cookie ->
                find k registered = find k m /\ find k updated = find k m).
Proof.
  intros Hord m registered updated.
  assert (Hreg : ordered registered = true).
  { apply (timeout_call_ordered (Register now cb cookie) d Hord). }
  assert (Hupd : ordered updated = true).
  { apply (timeout_call_ordered (Update now cookie) d Hord). }
  split; [intro k; repeat split; now apply ordered_count|].
  subst registered updated.
  rewrite register_timeout_handler_run, update_timeout_handler_run.
  unfold after; cbn [fst snd]. fold m.
  split.
  - destruct (find cookie m) as [e|] eqn:E;
      cbn [_timeout_handler_map set_timeout_handler_map].
    + split; [now apply (insert_present cookie _ e)|].
      split; [now apply find_set_time|apply keys_set_time].
    + split; [now apply find_insert_absent|reflexivity].
  - intros k Hne. split.
    + now apply find_insert_other.
    + destruct (find cookie m);
        cbn [_timeout_handler_map set_timeout_handler_map];
        [now apply find_set_time_other|reflexivity].
Qed.

(** C8. One call of [check_timeouts] erases at most one entry: either no
    entry has its time before [now] and nothing happens, or exactly one
    such entry - the one with the least cookie, however many have
    expired - is erased and its callback, if set, is called once. A
    cookie that was unregistered is not called back as long as it is not
    registered again, and over any run of calls a cookie is called back
    at most once per entry it had or was given by a registration. *)
Theorem check_timeouts_fires_at_most_one (d : DeviceImpl) :
  ordered (_timeout_handler_map d) = true ->
  let m := _timeout_handler_map d in
  (forall now,
     let r := check_timeouts now d in
     (Forall (fun kv => now <= time (snd kv)) m
      /\ _timeout_handler_map (after r) = m
      /\ trace r = [])
     \/ (exists cookie e,
           find cookie m = Some e
           /\ time e < now
           /\ (forall k' e',
                 find k' m = Some e' -> time e' < now -> cookie <= k')
           /\ _timeout_handler_map (after r) = erase cookie m
           /\ S (length (_timeout_handler_map (after r))) = length m
           /\ trace r = match callback e with
                        | Some cb => [TimeoutCallback cookie cb]
                        | None => []
                        end))
  /\ (forall cookie cs,
        registrations cookie cs = O ->
        fired cookie
          (trace (run_timeout_calls cs
                    (after (unregister_timeout_handler cookie d)))) = [])
  /\ (forall cookie cs,
        (length (fired cookie (trace (run_timeout_calls cs d)))
         <= count cookie m + registrations cookie cs)%nat
        /\ (count cookie m <= 1)%nat).
Proof.
  intros Hord m. split; [|split].
  - intros now r. subst r. rewrite check_timeouts_run.
    unfold after, trace; cbn [fst snd].
    cbn [_timeout_handler_map set_timeout_handler_map]. fold m.
    destruct (fst (take_expired now m)) as [[k e]|] eqn:E.
    + right. exists k, e.
      destruct (take_expired_some now m k e Hord E)
        as (Hf & Ht & Hmin & Hrest & Hlen).
      rewrite <- Hrest. repeat split; assumption.
    + left. destruct (take_expired_none now m E) as [Hrest Hall].
      repeat split; assumption.
  - intros cookie cs Hreg.
    pose proof (fired_bound cookie cs
                  (after (unregister_timeout_handler cookie d))) as Hb.
    rewrite unregister_timeout_handler_map, Hreg in Hb.
    assert (Hz : count cookie (erase cookie (_timeout_handler_map d)) = O).
    { apply count_zero. intro Hin. apply keys_erase in Hin. tauto. }
    rewrite Hz in Hb.
    destruct (fired cookie _); [reflexivity|cbn [length] in Hb; lia].
  - intros cookie cs. split; [apply fired_bound|now apply ordered_count].
Qed.

End TimeoutFacts.

Section HeartbeatFacts.

Context {env : Collaborators}.

(** ** process_heartbeat *)

Lemma request_autopilot_version_run (d : DeviceImpl) :
  request_autopilot_version d =
  (tt, d, trace (send_command MAV_CMD_REQUEST_AUTOPILOT_CAPABILITIES
                   {| v := [float_1_0; float_NAN; float_NAN; float_NAN;
                            float_NAN; float_NAN; float_NAN] |} d)).
Proof.
  unfold request_autopilot_version. cbv beta iota delta [bind ret].
  rewrite send_command_value.
  destruct (no_device d);
    [|destruct (parent_send_message _)]; reflexivity.
Qed.

Lemma process_heartbeat_fields (now : Z) (message : mavlink_message_t)
  (d : DeviceImpl) :
  let d' := after (process_heartbeat now message d) in
  _target_system_id d' =
    (if _target_system_id d =? 0 then sysid message
     else _target_system_id d)
  /\ _target_component_id d' =
    (if _target_system_id d =? 0 then compid message
     else _target_component_id d)
  /\ _target_uuid d' = _target_uuid d
  /\ _last_heartbeat_received_time d' = now
  /\ _heartbeat_timeout_us d' = _heartbeat_timeout_us d
  /\ _heartbeat_timed_out d' = false.
Proof.
  unfold process_heartbeat, check_device_thread.
  cbv beta iota zeta delta [bind get assign ret call].
  destruct (_target_system_id d =? 0);
    cbn [_target_uuid set_target_ids];
    destruct (_target_uuid d =? 0);
    rewrite ?request_autopilot_version_run;
    cbn [_device_thread set_target_ids];
    destruct (_device_thread d); repeat split; reflexivity.
Qed.

Lemma process_heartbeats_keep_ids (hs : list (Z * mavlink_message_t)) :
  forall d : DeviceImpl,
  _target_system_id d <> 0 ->
  _target_system_id (after (process_heartbeats hs d)) = _target_system_id d
  /\ _target_component_id (after (process_heartbeats hs d))
     = _target_component_id d.
Proof.
  unfold process_heartbeats.
  induction hs as [|[now m] hs IH]; intros d Hset; [now split|].
  rewrite for_each_cons_after. cbv beta. cbn [fst snd].
  destruct (process_heartbeat_fields now m d) as (Hs & Hc & _).
  apply Z.eqb_neq in Hset. rewrite Hset in Hs, Hc.
  apply Z.eqb_neq in Hset.
  destruct (IH (after (process_heartbeat now m d))) as [Hs' Hc'];
    [now rewrite Hs|].
  rewrite Hs', Hc'. now split.
Qed.

(** C9 (as the code has it). When the first heartbeat handled comes from
    a system id other than zero, the target system id and component id
    are those of its sender after it and after every later heartbeat.
    (Zero is the value of an unset system id: a heartbeat from system 0
    leaves the id unset.) *)
Theorem target_ids_set_by_first_heartbeat (now : Z)
  (message : mavlink_message_t) (hs : list (Z * mavlink_message_t))
  (d : DeviceImpl) :
  _target_system_id d = 0 ->
  sysid message <> 0 ->
  let d' := after (process_heartbeats ((now, message) :: hs) d) in
  _target_system_id d' = sysid message
  /\ _target_component_id d' = compid message.
Proof.
  intros Hunset Hsys d'. subst d'. unfold process_heartbeats.
  rewrite for_each_cons_after. cbv beta. cbn [fst snd].
  destruct (process_heartbeat_fields now message d) as (Hs & Hc & _).
  rewrite Hunset, Z.eqb_refl in Hs, Hc.
  destruct (process_heartbeats_keep_ids hs
              (after (process_heartbeat now message d))) as [Hs' Hc'];
    [now rewrite Hs|].
  unfold process_heartbeats in Hs', Hc'.
  rewrite Hs', Hc', Hs, Hc. now split.
Qed.

(** ** check_heartbeat_timeout *)

Lemma check_heartbeat_timeout_run (now : Z) (d : DeviceImpl) :
  check_heartbeat_timeout now d =
  if (now - _last_heartbeat_received_time d >? _heartbeat_timeout_us d)
     && negb (_heartbeat_timed_out d)
  then (tt, set_heartbeat_timed_out true d,
        [NotifyOnTimeout (_target_uuid d)])
  else (tt, d, []).
Proof.
  unfold check_heartbeat_timeout.
  cbv beta iota delta [bind get assign ret call].
  destruct (now - _last_heartbeat_received_time d >? _heartbeat_timeout_us d);
    destruct (_heartbeat_timed_out d); reflexivity.
Qed.

Lemma check_heartbeat_timeouts_latched (nows : list Z) (d : DeviceImpl) :
  _heartbeat_timed_out d = true ->
  check_heartbeat_timeouts nows d = (tt, d, []).
Proof.
  intro Hl. unfold check_heartbeat_timeouts.
  induction nows as [|now nows IH]; [reflexivity|].
  rewrite for_each_cons, check_heartbeat_timeout_run, Hl, andb_false_r.
  unfold after, trace; cbn [fst snd app]. now rewrite IH.
Qed.

Lemma check_heartbeat_timeouts_run (nows : list Z) (d : DeviceImpl) :
  _heartbeat_timed_out d = false ->
  check_heartbeat_timeouts nows d =
  if existsb (fun now => now - _last_heartbeat_received_time d
                         >? _heartbeat_timeout_us d) nows
  then (tt, set_heartbeat_timed_out true d,
        [NotifyOnTimeout (_target_uuid d)])
  else (tt, d, []).
Proof.
  intro Hl. induction nows as [|now nows IH]; [reflexivity|].
  unfold check_heartbeat_timeouts in *.
  rewrite for_each_cons, check_heartbeat_timeout_run, Hl, andb_true_r.
  cbn [existsb].
  destruct (now - _last_heartbeat_received_time d >? _heartbeat_timeout_us d);
    unfold after, trace; cbn [fst snd app orb].
  - fold (check_heartbeat_timeouts nows (set_heartbeat_timed_out true d)).
    now rewrite check_heartbeat_timeouts_latched.
  - rewrite IH. now destruct (existsb _ nows).
Qed.

(** C6. Over any series of periodic checks with no heartbeat in between,
    [notify_on_timeout] is called exactly once if the flag is clear and
    some check finds the last heartbeat older than the heartbeat
    timeout, and not at all otherwise, however many checks find it so. A
    heartbeat clears the flag and restarts the gap at its own time, so
    that the checks after it again notify exactly once if one of them
    finds the new gap longer than the timeout. *)
Theorem heartbeat_loss_notified_once (nows1 nows2 : list Z) (now : Z)
  (message : mavlink_message_t) (d : DeviceImpl) :
  let lost := fun last t => t - last >? _heartbeat_timeout_us d in
  let r1 := check_heartbeat_timeouts nows1 d in
  let r2 := process_heartbeat now message (after r1) in
  let r3 := check_heartbeat_timeouts nows2 (after r2) in
  trace r1 =
    (if negb (_heartbeat_timed_out d)
        && existsb (lost (_last_heartbeat_received_time d)) nows1
     then [NotifyOnTimeout (_target_uuid d)] else [])
  /\ _heartbeat_timed_out (after r1) =
     _heartbeat_timed_out d
     || existsb (lost (_last_heartbeat_received_time d)) nows1
  /\ _heartbeat_timed_out (after r2) = false
  /\ _last_heartbeat_received_time (after r2) = now
  /\ trace r3 =
     (if existsb (lost now) nows2
      then [NotifyOnTimeout (_target_uuid d)] else [])
  /\ _heartbeat_timed_out (after r3) = existsb (lost now) nows2.
Proof.
  intros lost r1 r2 r3.
  assert (H1 : trace r1 =
               (if negb (_heartbeat_timed_out d)
                   && existsb (lost (_last_heartbeat_received_time d)) nows1
                then [NotifyOnTimeout (_target_uuid d)] else [])
               /\ _heartbeat_timed_out (after r1) =
                  _heartbeat_timed_out d
                  || existsb (lost (_last_heartbeat_received_time d)) nows1
               /\ _target_uuid (after r1) = _target_uuid d
               /\ _heartbeat_timeout_us (after r1) = _heartbeat_timeout_us d).
  { subst r1. destruct (_heartbeat_timed_out d) eqn:Hl.
    - rewrite check_heartbeat_timeouts_latched by exact Hl.
      cbn. now rewrite Hl.
    - rewrite check_heartbeat_timeouts_run by exact Hl. subst lost.
      cbn [negb andb orb].
      destruct (existsb _ nows1); cbn; repeat split; assumption. }
  destruct H1 as (Ht1 & Hl1 & Hu1 & Hto1).
  destruct (process_heartbeat_fields now message (after r1))
    as (_ & _ & Hu2 & Hlast2 & Hto2 & Hl2).
  fold r2 in Hu2, Hlast2, Hto2, Hl2.
  repeat split; try assumption.
  - subst r3. rewrite check_heartbeat_timeouts_run by exact Hl2.
    rewrite Hlast2, Hto2, Hto1, Hu2, Hu1. fold (lost now).
    now destruct (existsb (lost now) nows2).
  - subst r3. rewrite check_heartbeat_timeouts_run by exact Hl2.
    rewrite Hlast2, Hto2, Hto1. fold (lost now).
    now destruct (existsb (lost now) nows2).
Qed.

(** ** process_autopilot_version *)

Lemma process_autopilot_version_run (message : mavlink_message_t)
  (d : DeviceImpl) :
  let autopilot_version := mavlink_msg_autopilot_version_decode message in
  process_autopilot_version message d =
  if _target_uuid d =? 0 then
    (tt,
     set_target_uuid (uid autopilot_version)
       (negb (Z.land (capabilities autopilot_version)
                MAV_PROTOCOL_CAPABILITY_MISSION_INT =? 0)) d,
     [NotifyOnDiscover (uid autopilot_version)])
  else if negb (_target_uuid d =? uid autopilot_version) then
    (tt, d, [DebugLog "Error: UUID changed"])
  else (tt, d, []).
Proof.
  unfold process_autopilot_version.
  cbv beta iota zeta delta [bind get assign ret call].
  destruct (_target_uuid d =? 0); [reflexivity|].
  destruct (_target_uuid d =? uid (mavlink_msg_autopilot_version_decode message));
    reflexivity.
Qed.

Lemma process_autopilot_versions_set (ms : list mavlink_message_t)
  (d : DeviceImpl) :
  _target_uuid d <> 0 ->
  process_autopilot_versions ms d =
  (tt, d,
   map (fun _ => DebugLog "Error: UUID changed")
     (filter (fun m => negb (_target_uuid d
                             =? uid (mavlink_msg_autopilot_version_decode m)))
        ms)).
Proof.
  intro Hset. unfold process_autopilot_versions.
  induction ms as [|m ms IH]; [reflexivity|].
  rewrite for_each_cons, process_autopilot_version_run. cbv zeta.
  apply Z.eqb_neq in Hset. rewrite Hset. cbn [filter].
  destruct (negb (_target_uuid d
                  =? uid (mavlink_msg_autopilot_version_decode m)));
    unfold after, trace; cbn [fst snd app map]; now rewrite IH.
Qed.

(** C5 (as the code has it). When the first capability report handled
    carries a unique id other than zero, the stored unique id is that
    id after it and after every later report: the parent is notified of
    the discovery once, with that id, and every later report that
    carries another id leaves the stored id as it is and writes the
    debug message "Error: UUID changed". (Zero is the value of an unset
    unique id: a report with uid 0 leaves the id unset.) *)
Theorem unique_id_set_by_first_report (message : mavlink_message_t)
  (ms : list mavlink_message_t) (d : DeviceImpl) :
  _target_uuid d = 0 ->
  uid (mavlink_msg_autopilot_version_decode message) <> 0 ->
  let u := uid (mavlink_msg_autopilot_version_decode message) in
  let r := process_autopilot_versions (message :: ms) d in
  _target_uuid (after r) = u
  /\ trace r =
     NotifyOnDiscover u
     :: map (fun _ => DebugLog "Error: UUID changed")
          (filter
             (fun m =>
                negb (u =? uid (mavlink_msg_autopilot_version_decode m)))
             ms).
Proof.
  intros Hunset Hu u r. subst r. unfold process_autopilot_versions.
  rewrite for_each_cons_after, for_each_cons_trace.
  rewrite process_autopilot_version_run. cbv zeta.
  rewrite Hunset, Z.eqb_refl. fold u.
  set (flag := negb (Z.land (capabilities
                               (mavlink_msg_autopilot_version_decode message))
                       MAV_PROTOCOL_CAPABILITY_MISSION_INT =? 0)).
  change (after (tt, set_target_uuid u flag d, [NotifyOnDiscover u]))
    with (set_target_uuid u flag d).
  change (trace (tt, set_target_uuid u flag d, [NotifyOnDiscover u]))
    with [NotifyOnDiscover u].
  pose proof (process_autopilot_versions_set ms (set_target_uuid u flag d) Hu)
    as Hrest.
  unfold process_autopilot_versions in Hrest. rewrite Hrest.
  split; reflexivity.
Qed.

End HeartbeatFacts.

(** ** The theorems at concrete inputs *)

Module Runs.

(** C1 at a new device: the call returns NO_DEVICE and the state stays
    WAITING, so that the next call finds the device busy. *)
Lemma send_command_with_ack_on_fresh_device :
  let r := send_command_with_ack (env := loopback true) no_arrivals
             MAV_CMD_SET_MESSAGE_INTERVAL rate_params fresh in
  let r' := send_command_with_ack (env := loopback true) no_arrivals
              MAV_CMD_SET_MESSAGE_INTERVAL rate_params (after r) in
  _command_state fresh = NONE
  /\ value r = NO_DEVICE
  /\ _command_state (after r) = WAITING
  /\ value r' = BUSY.
Proof.
  assert (Hst : _command_state fresh <> WAITING) by discriminate.
  destruct (send_command_with_ack_state_on_return (env := loopback true)
              no_arrivals MAV_CMD_SET_MESSAGE_INTERVAL rate_params fresh Hst)
    as (Hstate & Hnone & _).
  split; [reflexivity|]. split; [apply Hnone; reflexivity|].
  split; [exact Hstate|reflexivity].
Defined.

(** C2 at a denied acknowledgement (MAV_RESULT_FAILED) with callback 7
    pending. *)
Lemma process_command_ack_on_denied :
  let d := set_command_result_callback (Some 7%nat)
             (set_command_state WAITING paired) in
  let r := process_command_ack (env := loopback true)
             (ack_message MAV_RESULT_FAILED) d in
  trace r = [CommandResultCallback 7 SUCCESS]
  /\ _command_state (after r) = RECEIVED
  /\ _command_result (after r) = MAV_RESULT_FAILED
  /\ _command_result_callback (after r) = None.
Proof.
  apply (process_command_ack_denied_reports_success (env := loopback true)
           (ack_message MAV_RESULT_FAILED) 7%nat
           (set_command_result_callback (Some 7%nat)
              (set_command_state WAITING paired)));
    [reflexivity | reflexivity | discriminate].
Defined.

(** C3 at a device that waits for an acknowledgement, callback 7
    pending, when the call comes with callback 8. *)
Lemma send_command_with_ack_async_on_waiting :
  let d := set_command_result_callback (Some 7%nat)
             (set_command_state WAITING paired) in
  let r := send_command_with_ack_async (env := loopback true)
             MAV_CMD_SET_MESSAGE_INTERVAL rate_params (Some 8%nat) d in
  trace r =
    [CommandResultCallback 8 BUSY;
     SendMessage
       (command_message (env := loopback true)
          MAV_CMD_SET_MESSAGE_INTERVAL rate_params d)]
  /\ _command_result_callback (after r) = Some 8%nat.
Proof.
  intros d r.
  destruct (send_command_with_ack_async_busy_still_sends
              (env := loopback true)
              MAV_CMD_SET_MESSAGE_INTERVAL rate_params 8%nat d)
    as [Htrace Hafter]; [reflexivity | reflexivity |].
  split; [exact Htrace|]. subst r. rewrite Hafter. reflexivity.
Defined.

(** C10 at a device with callback 7 left pending, when an accepted
    acknowledgement arrives during the first sleep. *)
Lemma send_command_with_ack_over_pending_callback :
  let d := set_command_result_callback (Some 7%nat)
             (set_command_state RECEIVED paired) in
  let arrivals :=
    {| before_wait := [];
       during_sleep := fun i =>
         if Nat.eqb i 0 then [ack_message MAV_RESULT_ACCEPTED] else [] |} in
  let r := send_command_with_ack (env := loopback true) arrivals
             MAV_CMD_SET_MESSAGE_INTERVAL rate_params d in
  value r = SUCCESS
  /\ reported (trace r) = []
  /\ _command_result_callback (after r) = None.
Proof.
  intros d arrivals r.
  assert (Hst : _command_state d <> WAITING) by discriminate.
  destruct (send_command_with_ack_calls_no_callback (env := loopback true)
              arrivals MAV_CMD_SET_MESSAGE_INTERVAL rate_params d Hst)
    as (_ & Hrep & Hcb).
  split; [vm_compute; reflexivity|]. split; [exact Hrep|exact Hcb].
Defined.

(** C4 at a device where cookie 42 is registered at time 0: the refresh
    at time 1000 moves the time to 501000 and keeps callback 7. *)
Lemma update_timeout_handler_on_registered :
  let d := after (register_timeout_handler 0 (Some 7%nat) 42 fresh) in
  let updated :=
    _timeout_handler_map (after (update_timeout_handler 1000 42 d)) in
  StdMap.find 42 updated = Some {| time := 501000; callback := Some 7%nat |}
  /\ StdMap.keys updated = [42].
Proof.
  intros d updated.
  assert (Hord : StdMap.ordered (_timeout_handler_map d) = true)
    by reflexivity.
  destruct (timeout_handler_one_entry_per_cookie 1000 (Some 8%nat) 42 d Hord)
    as (_ & Hcase & _).
  exact (proj2 Hcase).
Defined.

(** C4, the claim as written: a second registration of cookie 42, at
    time 1000, does not move its time to 1000 + 500000; the time of the
    first registration stays, and so does the first callback. *)
Lemma register_again_keeps_old_time :
  let d1 := after (register_timeout_handler 0 (Some 7%nat) 42 fresh) in
  let d2 := after (register_timeout_handler 1000 (Some 8%nat) 42 d1) in
  StdMap.find 42 (_timeout_handler_map d1)
    = Some {| time := 500000; callback := Some 7%nat |}
  /\ StdMap.find 42 (_timeout_handler_map d2)
    = Some {| time := 500000; callback := Some 7%nat |}
  /\ StdMap.find 42 (_timeout_handler_map d2)
    <> Some {| time := 1000 + _timeout_us d1; callback := Some 8%nat |}
  /\ StdMap.find 42 (_timeout_handler_map d2)
    <> Some {| time := 1000 + _timeout_us d1; callback := Some 7%nat |}.
Proof.
  repeat split; try reflexivity; discriminate.
Defined.

(** C8 at a device with two expired handlers: one check calls only the
    first, and three checks call the second once. *)
Lemma check_timeouts_on_two_expired :
  trace (check_timeouts 100 two_expired) = [TimeoutCallback 1 5]
  /\ StdMap.keys (_timeout_handler_map (after (check_timeouts 100 two_expired)))
     = [2]
  /\ (length (fired 2 (trace (run_timeout_calls
                                [Check 100; Check 100; Check 100]
                                two_expired))) <= 1)%nat.
Proof.
  assert (Hord : StdMap.ordered (_timeout_handler_map two_expired) = true)
    by reflexivity.
  destruct (check_timeouts_fires_at_most_one two_expired Hord)
    as (_ & _ & Honce).
  split; [reflexivity|]. split; [reflexivity|].
  exact (proj1 (Honce 2 [Check 100; Check 100; Check 100])).
Defined.

(** C9 at a first heartbeat of system 1, component 1, followed by one
    of system 2, component 7. *)
Lemma process_heartbeats_on_two_senders :
  let d := after (process_heartbeats (env := loopback true)
                    [(10, heartbeat_message 1 1);
                     (20, heartbeat_message 2 7)] fresh) in
  _target_system_id d = 1 /\ _target_component_id d = 1.
Proof.
  apply (target_ids_set_by_first_heartbeat (env := loopback true)
           10 (heartbeat_message 1 1) [(20, heartbeat_message 2 7)] fresh);
    [reflexivity | discriminate].
Defined.

(** C9, the claim as written: the ids set from a first heartbeat of
    system 0, component 5 are changed by the next heartbeat. *)
Lemma heartbeat_after_system_zero_changes_ids :
  let d1 := after (process_heartbeat (env := loopback true) 10
                     (heartbeat_message 0 5) fresh) in
  let d2 := after (process_heartbeat (env := loopback true) 20
                     (heartbeat_message 2 7) d1) in
  (_target_system_id d1, _target_component_id d1) = (0, 5)
  /\ (_target_system_id d2, _target_component_id d2) = (2, 7)
  /\ _target_component_id d2 <> _target_component_id d1.
Proof.
  repeat split; try reflexivity; discriminate.
Defined.

(** C5 at a first report with uid 5, followed by one with uid 6 and one
    with uid 5. *)
Lemma process_autopilot_versions_on_two_ids :
  let r := process_autopilot_versions (env := loopback true)
             [version_message 4 5; version_message 4 6;
              version_message 4 5] fresh in
  _target_uuid (after r) = 5
  /\ trace r = [NotifyOnDiscover 5; DebugLog "Error: UUID changed"].
Proof.
  apply (unique_id_set_by_first_report (env := loopback true)
           (version_message 4 5)
           [version_message 4 6; version_message 4 5] fresh);
    [reflexivity | discriminate].
Defined.

(** C5, the claim as written: after a first report with uid 0, a report
    with uid 5 changes the stored id and no anomaly is signalled. *)
Lemma report_after_zero_uid_changes_uuid :
  let r1 := process_autopilot_version (env := loopback true)
              (version_message 4 0) fresh in
  let r2 := process_autopilot_version (env := loopback true)
              (version_message 4 5) (after r1) in
  _target_uuid (after r1) = 0
  /\ trace r1 = [NotifyOnDiscover 0]
  /\ _target_uuid (after r2) = 5
  /\ trace r2 = [NotifyOnDiscover 5]
  /\ _target_uuid (after r2) <> _target_uuid (after r1).
Proof.
  repeat split; try reflexivity; discriminate.
Defined.

End Runs.

(** * More of the code *)

(** ** The handler table *)

Section HandlerTableFacts.

Context {env : Collaborators}.

Import HandlerTable.

Lemma unregister_all_in (c : Z) (table : HandlerTable.t)
  (e : MavlinkHandlerTableEntry) :
  In e (unregister_all_mavlink_message_handlers c table)
  <-> In e table /\ cookie e <> c.
Proof.
  induction table as [|x table IH]; cbn [unregister_all_mavlink_message_handlers].
  - simpl. tauto.
  - destruct (cookie x =? c) eqn:E.
    + apply Z.eqb_eq in E. rewrite IH. simpl. split; [tauto|].
      intros [[<-|Hin] Hne]; [congruence|tauto].
    + apply Z.eqb_neq in E. simpl. rewrite IH. split.
      * intros [<-|[Hin Hne]]; [split; [now left|exact E]|tauto].
      * intros [[<-|Hin] Hne]; [now left|right; tauto].
Qed.

Lemma unregister_all_app (c : Z) (t1 t2 : HandlerTable.t) :
  unregister_all_mavlink_message_handlers c (t1 ++ t2)
  = unregister_all_mavlink_message_handlers c t1
      ++ unregister_all_mavlink_message_handlers c t2.
Proof.
  induction t1 as [|x t1 IH]; [reflexivity|].
  cbn [app unregister_all_mavlink_message_handlers].
  destruct (cookie x =? c); cbn [app]; now rewrite IH.
Qed.

Lemma unregister_all_none (c : Z) (table : HandlerTable.t) :
  (forall e, In e table -> cookie e <> c) ->
  unregister_all_mavlink_message_handlers c table = table.
Proof.
  induction table as [|x table IH]; intro Hall; [reflexivity|].
  cbn [unregister_all_mavlink_message_handlers].
  destruct (cookie x =? c) eqn:E.
  - apply Z.eqb_eq in E. elim (Hall x (or_introl eq_refl)). exact E.
  - rewrite IH; [reflexivity|]. intros e Hin. apply Hall. now right.
Qed.

(** X1. [unregister_all_mavlink_message_handlers] removes exactly the
    entries of the cookie: what stays are the entries of the other
    cookies, in the order they had; a table without entries of the cookie
    is left as it is, and a second call changes nothing more. *)
Theorem unregister_all_removes_the_cookie (c : Z) (table : HandlerTable.t) :
  let table' := unregister_all_mavlink_message_handlers c table in
  table' = filter (fun e => negb (cookie e =? c)) table
  /\ (forall e, In e table' <-> In e table /\ cookie e <> c)
  /\ ((forall e, In e table -> cookie e <> c) -> table' = table)
  /\ unregister_all_mavlink_message_handlers c table' = table'.
Proof.
  intro table'. subst table'. split; [|split; [|split]].
  - induction table as [|x table IH]; [reflexivity|].
    cbn [unregister_all_mavlink_message_handlers filter].
    destruct (cookie x =? c); cbn [negb]; now rewrite IH.
  - intro e. apply unregister_all_in.
  - apply unregister_all_none.
  - apply unregister_all_none. intros e Hin.
    apply unregister_all_in in Hin. tauto.
Qed.

(** X2. Registration followed by [unregister_all]: the entry just
    registered goes with its cookie, and for another cookie the two
    calls commute - the new entry stays last. *)
Theorem unregister_all_after_register (id : Z)
  (cb : mavlink_message_handler_t) (c c' : Z) (table : HandlerTable.t) :
  unregister_all_mavlink_message_handlers c
    (register_mavlink_message_handler id cb c' table)
  = if c' =? c then unregister_all_mavlink_message_handlers c table
    else register_mavlink_message_handler id cb c'
           (unregister_all_mavlink_message_handlers c table).
Proof.
  unfold register_mavlink_message_handler. rewrite unregister_all_app.
  cbn [unregister_all_mavlink_message_handlers cookie].
  destruct (c' =? c); [apply app_nil_r|reflexivity].
Qed.

Lemma process_mavlink_message_app (t1 t2 : HandlerTable.t) (now : Z)
  (message : mavlink_message_t) :
  forall d : DeviceImpl,
  process_mavlink_message (t1 ++ t2) now message d =
  (fst (process_mavlink_message t2 now message
          (fst (process_mavlink_message t1 now message d))),
   snd (process_mavlink_message t1 now message d)
     ++ snd (process_mavlink_message t2 now message
               (fst (process_mavlink_message t1 now message d)))).
Proof.
  induction t1 as [|x t1 IH]; intro d; cbn [app process_mavlink_message].
  - cbn [fst snd app]. now destruct (process_mavlink_message t2 now message d).
  - destruct (msg_id x =? msgid message); [|apply IH].
    destruct (call_handler (callback x) now message d) as [d1 e1].
    rewrite IH.
    destruct (process_mavlink_message t1 now message d1) as [d2 e2].
    cbn [fst snd]. now rewrite app_assoc.
Qed.

(** X3. A handler is called after all the handlers registered before it:
    dispatching on the table with one more registration is dispatching on
    the old table and then, if the message id is the registered one,
    calling the new handler on the object the others left. *)
Theorem process_mavlink_message_after_register (id : Z)
  (cb : mavlink_message_handler_t) (c : Z) (table : HandlerTable.t)
  (now : Z) (message : mavlink_message_t) (d : DeviceImpl) :
  let earlier := process_mavlink_message table now message d in
  process_mavlink_message (register_mavlink_message_handler id cb c table)
    now message d =
  if id =? msgid message then
    (fst (call_handler cb now message (fst earlier)),
     snd earlier ++ snd (call_handler cb now message (fst earlier)))
  else earlier.
Proof.
  intro earlier. unfold register_mavlink_message_handler.
  rewrite process_mavlink_message_app. fold earlier.
  cbn [process_mavlink_message msg_id callback].
  destruct (id =? msgid message).
  - destruct (call_handler cb now message (fst earlier)) as [d1 e1].
    cbn [fst snd]. now rewrite app_nil_r.
  - cbn [fst snd]. rewrite app_nil_r. now destruct earlier.
Qed.

Lemma other_calls_app (xs ys : list Called) :
  other_calls (xs ++ ys) = other_calls xs ++ other_calls ys.
Proof.
  induction xs as [|x xs IH]; [reflexivity|].
  destruct x; cbn [app other_calls]; now rewrite IH.
Qed.

Lemma other_calls_by_device (es : list Event) :
  other_calls (map ByDevice es) = [].
Proof. induction es as [|e es IH]; [reflexivity|exact IH]. Qed.

(** X4. For every message, the handlers of other owners whose message id
    matches are each called once per registration, with that message, in
    the order of the table, whatever the bound methods in between do;
    entries with another message id are not called. *)
Theorem process_mavlink_message_calls_in_order (table : HandlerTable.t)
  (now : Z) (message : mavlink_message_t) (d : DeviceImpl) :
  other_calls (snd (process_mavlink_message table now message d)) =
  flat_map
    (fun e =>
       if msg_id e =? msgid message then
         match callback e with
         | other_handler id => [(id, message)]
         | _ => []
         end
       else [])
    table.
Proof.
  revert d. induction table as [|x table IH]; intro d; [reflexivity|].
  cbn [process_mavlink_message flat_map].
  destruct (msg_id x =? msgid message); [|apply IH].
  destruct (call_handler (callback x) now message d) as [d1 e1] eqn:E.
  specialize (IH d1).
  destruct (process_mavlink_message table now message d1) as [d2 e2].
  cbn [fst snd] in *. rewrite other_calls_app, IH. f_equal.
  unfold call_handler in E.
  destruct (callback x); injection E as <- <-;
    try apply other_calls_by_device; reflexivity.
Qed.

(** X5. On the table that the constructor fills, a heartbeat message runs
    [process_heartbeat], a command acknowledgement [process_command_ack],
    a capability report [process_autopilot_version], each once, and a
    message of any other id does nothing. *)
Theorem process_mavlink_message_of_constructor (this : Z) (now : Z)
  (message : mavlink_message_t) (d : DeviceImpl) :
  process_mavlink_message (DeviceImpl_handlers this) now message d =
  if msgid message =? MAVLINK_MSG_ID_HEARTBEAT then
    (after (process_heartbeat now message d),
     map ByDevice (trace (process_heartbeat now message d)))
  else if msgid message =? MAVLINK_MSG_ID_COMMAND_ACK then
    (after (process_command_ack message d),
     map ByDevice (trace (process_command_ack message d)))
  else if msgid message =? MAVLINK_MSG_ID_AUTOPILOT_VERSION then
    (after (process_autopilot_version message d),
     map ByDevice (trace (process_autopilot_version message d)))
  else (d, []).
Proof.
  unfold DeviceImpl_handlers, register_mavlink_message_handler.
  cbn [app process_mavlink_message msg_id callback call_handler].
  rewrite !(Z.eqb_sym _ (msgid message)).
  destruct (msgid message =? MAVLINK_MSG_ID_HEARTBEAT) eqn:E0;
    destruct (msgid message =? MAVLINK_MSG_ID_COMMAND_ACK) eqn:E1;
    destruct (msgid message =? MAVLINK_MSG_ID_AUTOPILOT_VERSION) eqn:E2;
    try (apply Z.eqb_eq in E0; apply Z.eqb_eq in E1;
         rewrite E0 in E1; discriminate);
    try (apply Z.eqb_eq in E0; apply Z.eqb_eq in E2;
         rewrite E0 in E2; discriminate);
    try (apply Z.eqb_eq in E1; apply Z.eqb_eq in E2;
         rewrite E1 in E2; discriminate);
    cbn [fst snd app]; rewrite ?app_nil_r; reflexivity.
Qed.

(** X6. Once the destructor has unregistered the cookie of the object,
    and the bound methods were registered under that cookie only, no
    dispatch reaches the object: it stays as it is and the only calls are
    those of the handlers of other owners. *)
Theorem process_mavlink_message_after_destructor (this : Z)
  (table : HandlerTable.t) (now : Z) (message : mavlink_message_t)
  (d : DeviceImpl) :
  (forall e, In e table -> cookie e <> this ->
             exists id, callback e = other_handler id) ->
  let r := process_mavlink_message
             (unregister_all_mavlink_message_handlers this table)
             now message d in
  fst r = d
  /\ snd r = map (fun p => OtherHandler (fst p) (snd p)) (other_calls (snd r)).
Proof.
  intros Hbound r. subst r.
  assert (Hall : forall e,
             In e (unregister_all_mavlink_message_handlers this table) ->
             exists id, callback e = other_handler id).
  { intros e Hin. apply unregister_all_in in Hin.
    destruct Hin as [Hin Hne]. exact (Hbound e Hin Hne). }
  induction (unregister_all_mavlink_message_handlers this table)
    as [|x rest IH]; [now split|].
  cbn [process_mavlink_message].
  assert (Hrest : forall e, In e rest ->
                            exists id, callback e = other_handler id)
    by (intros e Hin; apply Hall; now right).
  specialize (IH Hrest).
  destruct (msg_id x =? msgid message); [|exact IH].
  destruct (Hall x (or_introl eq_refl)) as [id Hid].
  rewrite Hid. cbn [call_handler].
  destruct (process_mavlink_message rest now message d) as [d2 e2].
  cbn [fst snd app other_calls map] in *.
  destruct IH as [-> He2]. split; [reflexivity|]. now rewrite <- He2.
Qed.

End HandlerTableFacts.

Section HandlerTableOwners.

Context {env : Collaborators}.

Import HandlerTable.

Lemma process_mavlink_message_other_calls (table : HandlerTable.t)
  (now : Z) (message : mavlink_message_t) (d : DeviceImpl)
  (id : nat) (m : mavlink_message_t) :
  In (id, m) (other_calls (snd (process_mavlink_message table now message d)))
  -> exists e, In e table /\ callback e = other_handler id.
Proof.
  revert d. induction table as [|x table IH]; intro d; [intros []|].
  cbn [process_mavlink_message].
  destruct (msg_id x =? msgid message).
  - destruct (call_handler (callback x) now message d) as [d1 e1] eqn:E.
    specialize (IH d1).
    destruct (process_mavlink_message table now message d1) as [d2 e2].
    cbn [fst snd] in *. rewrite other_calls_app. intro Hin.
    apply in_app_or in Hin. destruct Hin as [Hin|Hin].
    + exists x. split; [now left|].
      unfold call_handler in E.
      destruct (callback x); injection E as <- <-;
        try (rewrite other_calls_by_device in Hin; destruct Hin).
      cbn in Hin. destruct Hin as [[= -> _]|[]]. reflexivity.
    + destruct (IH Hin) as [e [He Hcb]]. exists e. split; [now right|exact Hcb].
  - intro Hin. destruct (IH d Hin) as [e [He Hcb]].
    exists e. split; [now right|exact Hcb].
Qed.

(** X7. A handler of another owner whose registrations were all made
    under one cookie is not called by any dispatch once that cookie has
    been unregistered. *)
Theorem unregistered_handler_is_not_called (c : Z) (table : HandlerTable.t)
  (id : nat) (now : Z) (message m : mavlink_message_t) (d : DeviceImpl) :
  (forall e, In e table -> callback e = other_handler id -> cookie e = c) ->
  ~ In (id, m)
      (other_calls
         (snd (process_mavlink_message
                 (unregister_all_mavlink_message_handlers c table)
                 now message d))).
Proof.
  intros Hown Hin.
  apply process_mavlink_message_other_calls in Hin.
  destruct Hin as [e [He Hcb]].
  apply unregister_all_in in He. destruct He as [He Hne].
  apply Hne. now apply Hown.
Qed.

End HandlerTableOwners.

(** ** More on the command protocol *)

Section CommandProtocol.

Context {env : Collaborators}.

Lemma arrived_nothing (arrivals : Arrivals) (iterations : nat) :
  before_wait arrivals = [] ->
  (forall i, (i < iterations)%nat -> during_sleep arrivals i = []) ->
  arrived arrivals iterations = [].
Proof.
  intros Hb Hs. unfold arrived. rewrite Hb. cbn [app].
  assert (H : forall n start, (start + n <= iterations)%nat ->
                concat (map (during_sleep arrivals) (seq start n)) = []).
  { induction n as [|n IH]; intros start Hle; [reflexivity|].
    cbn [seq map concat]. rewrite Hs by lia. cbn [app]. apply IH. lia. }
  apply (H iterations O). lia.
Qed.

(** X8. With a known target and the link up, a blocking call during
    whose wait no acknowledgement is handled - none before the first test
    and none in the sleeps of its [_timeout_us / 1000] iterations -
    returns TIMEOUT with the state back to NONE, after sending the command
    once; the stored result is not touched, and what arrives after the
    last iteration plays no part. *)
Theorem send_command_with_ack_times_out (arrivals : Arrivals) (command : Z)
  (params : CommandParams) (d : DeviceImpl) :
  _command_state d <> WAITING ->
  no_device d = false ->
  parent_send_message (command_message command params d) = true ->
  before_wait arrivals = [] ->
  (forall i, (i < Z.to_nat (_timeout_us d / 1000))%nat ->
             during_sleep arrivals i = []) ->
  let r := send_command_with_ack arrivals command params d in
  value r = TIMEOUT
  /\ _command_state (after r) = NONE
  /\ _command_result (after r) = _command_result d
  /\ trace r = [SendMessage (command_message command params d)].
Proof.
  intros Hst Hn Hl Hb Hs r. subst r.
  pose proof (send_command_value command params d) as Hv.
  rewrite Hn, Hl in Hv.
  rewrite send_command_with_ack_sent by (rewrite ?Hv; easy).
  cbv zeta. rewrite (arrived_nothing _ _ Hb Hs), Hv.
  repeat split.
Qed.

(** X9. With a known target and the link up, the first acknowledgement
    handled within the wait decides the blocking call: it returns SUCCESS
    if that result is MAV_RESULT_ACCEPTED and COMMAND_DENIED otherwise,
    the stored result is that of the first acknowledgement whatever the
    later ones carry, the state is NONE, and the command was sent once. *)
Theorem send_command_with_ack_first_ack_decides (arrivals : Arrivals)
  (command : Z) (params : CommandParams) (d : DeviceImpl)
  (m : mavlink_message_t) :
  _command_state d <> WAITING ->
  no_device d = false ->
  parent_send_message (command_message command params d) = true ->
  hd_error (arrived arrivals (Z.to_nat (_timeout_us d / 1000))) = Some m ->
  let r := send_command_with_ack arrivals command params d in
  value r =
    (if result (mavlink_msg_command_ack_decode m) =? MAV_RESULT_ACCEPTED
     then SUCCESS else COMMAND_DENIED)
  /\ _command_result (after r) = result (mavlink_msg_command_ack_decode m)
  /\ _command_state (after r) = NONE
  /\ trace r = [SendMessage (command_message command params d)].
Proof.
  intros Hst Hn Hl Hm r. subst r.
  pose proof (send_command_value command params d) as Hv.
  rewrite Hn, Hl in Hv.
  rewrite send_command_with_ack_sent by (rewrite ?Hv; easy).
  cbv zeta. rewrite Hm, Hv. repeat split.
Qed.

Lemma send_command_with_ack_async_run (command : Z) (params : CommandParams)
  (callback : option nat) (d : DeviceImpl) :
  _command_state d <> WAITING ->
  send_command_with_ack_async command params callback d =
  if no_device d then
    (tt, set_command_state NONE d,
     match callback with
     | Some cb => [CommandResultCallback cb NO_DEVICE]
     | None => []
     end)
  else if parent_send_message (command_message command params d) then
    (tt, set_command_result_callback callback (set_command_state WAITING d),
     SendMessage (command_message command params d)
     :: match callback with
        | Some _ => []
        | None => [DebugLog "Callback is null"]
        end)
  else
    (tt, set_command_state NONE d,
     SendMessage (command_message command params d)
     :: match callback with
        | Some cb => [CommandResultCallback cb CONNECTION_ERROR]
        | None => []
        end).
Proof.
  intro Hst. unfold send_command_with_ack_async, report_result.
  cbv beta iota delta [bind get assign ret call].
  destruct (CommandState_eqb (_command_state d) WAITING) eqn:E.
  { destruct (_command_state d); simpl in E; congruence. }
  rewrite (send_command_value command params d).
  destruct (no_device d); [destruct callback; reflexivity|].
  destruct (parent_send_message (command_message command params d));
    destruct callback; reflexivity.
Qed.

(** X10. [send_command_with_ack_async] called in a state other than
    WAITING. Target unknown: NO_DEVICE goes to the callback at once,
    nothing is sent, and the state is NONE. Send failed: the command was
    handed to the parent, CONNECTION_ERROR goes to the callback, and the
    state is NONE. Otherwise the command is sent, the state becomes
    WAITING and the callback is stored; a null callback is stored too,
    with a debug message. In the two failures the callback field keeps
    what it held. *)
Theorem send_command_with_ack_async_when_free (command : Z)
  (params : CommandParams) (callback : option nat) (d : DeviceImpl) :
  _command_state d <> WAITING ->
  let r := send_command_with_ack_async command params callback d in
  let message := command_message command params d in
  if no_device d then
    sent (trace r) = []
    /\ reported (trace r) =
       match callback with Some cb => [(cb, NO_DEVICE)] | None => [] end
    /\ after r = set_command_state NONE d
  else if parent_send_message message then
    trace r =
      SendMessage message
      :: match callback with
         | Some _ => []
         | None => [DebugLog "Callback is null"]
         end
    /\ _command_state (after r) = WAITING
    /\ _command_result_callback (after r) = callback
  else
    sent (trace r) = [message]
    /\ reported (trace r) =
       match callback with
       | Some cb => [(cb, CONNECTION_ERROR)]
       | None => []
       end
    /\ after r = set_command_state NONE d.
Proof.
  intros Hst r message. subst r.
  rewrite send_command_with_ack_async_run by exact Hst. fold message.
  destruct (no_device d); [destruct callback; repeat split|].
  destruct (parent_send_message message); destruct callback; repeat split.
Qed.



End CommandProtocol.

(** ** More on heartbeats and capability reports *)

Section Identification.

Context {env : Collaborators}.

Lemma process_heartbeat_run (now : Z) (message : mavlink_message_t)
  (d : DeviceImpl) :
  let d1 := if _target_system_id d =? 0
            then set_target_ids (sysid message) (compid message) d
            else d in
  process_heartbeat now message d =
  (tt,
   set_heartbeat_timed_out false
     (set_last_heartbeat_received_time now
        (if _device_thread d then d1 else set_device_thread true d1)),
   (if _target_uuid d =? 0
    then trace (send_command MAV_CMD_REQUEST_AUTOPILOT_CAPABILITIES
                  {| v := [float_1_0; float_NAN; float_NAN; float_NAN;
                           float_NAN; float_NAN; float_NAN] |} d1)
    else [])
   ++ (if _device_thread d then [] else [ThreadStart])).
Proof.
  unfold process_heartbeat, check_device_thread.
  cbv beta iota zeta delta [bind get assign ret call].
  destruct (_target_system_id d =? 0);
    cbn [_target_uuid set_target_ids];
    destruct (_target_uuid d =? 0);
    rewrite ?request_autopilot_version_run;
    cbn [_device_thread set_target_ids];
    destruct (_device_thread d); cbn [negb app];
    rewrite ?app_nil_r; reflexivity.
Qed.

Lemma thread_starts_app (es es' : list Event) :
  thread_starts (es ++ es') = (thread_starts es + thread_starts es')%nat.
Proof.
  induction es as [|e es IH]; [reflexivity|].
  destruct e; cbn [app thread_starts]; rewrite IH; reflexivity.
Qed.

Lemma sent_app (es es' : list Event) :
  sent (es ++ es') = sent es ++ sent es'.
Proof.
  induction es as [|e es IH]; [reflexivity|].
  destruct e; cbn [app sent]; rewrite IH; reflexivity.
Qed.

Lemma send_command_trace (command : Z) (params : CommandParams)
  (d : DeviceImpl) :
  trace (send_command command params d) =
  if no_device d then []
  else [SendMessage (command_message command params d)].
Proof.
  rewrite send_command_value. destruct (no_device d); [reflexivity|].
  now destruct (parent_send_message _).
Qed.

Lemma process_heartbeat_thread (now : Z) (message : mavlink_message_t)
  (d : DeviceImpl) :
  thread_starts (trace (process_heartbeat now message d))
  = (if _device_thread d then 0 else 1)%nat
  /\ _device_thread (after (process_heartbeat now message d)) = true.
Proof.
  rewrite process_heartbeat_run. cbv zeta. cbn [trace after fst snd].
  rewrite thread_starts_app.
  assert (H0 : forall x, thread_starts
                 (if _target_uuid d =? 0
                  then trace (send_command
                                MAV_CMD_REQUEST_AUTOPILOT_CAPABILITIES
                                {| v := [float_1_0; float_NAN; float_NAN;
                                         float_NAN; float_NAN; float_NAN;
                                         float_NAN] |} x)
                  else []) = O).
  { intro x. destruct (_target_uuid d =? 0); [|reflexivity].
    rewrite send_command_trace. now destruct (no_device x). }
  rewrite H0.
  destruct (_device_thread d) eqn:E; split; try reflexivity.
  destruct (_target_system_id d =? 0); exact E.
Qed.

(** X13. Over any run of heartbeats the device thread is started at most
    once: by the first heartbeat, if it is not running yet. After a
    heartbeat it is running. *)
Theorem device_thread_started_once (hs : list (Z * mavlink_message_t))
  (d : DeviceImpl) :
  let r := process_heartbeats hs d in
  thread_starts (trace r) =
    (if _device_thread d then 0
     else match hs with [] => 0 | _ :: _ => 1 end)%nat
  /\ (hs <> [] -> _device_thread (after r) = true).
Proof.
  intro r. subst r. unfold process_heartbeats.
  assert (Hrunning : forall hs d, _device_thread d = true ->
            thread_starts
              (trace (for_each (fun h => process_heartbeat (fst h) (snd h))
                        hs d)) = O
            /\ _device_thread
                 (after (for_each (fun h => process_heartbeat (fst h) (snd h))
                           hs d)) = true).
  { clear. induction hs as [|[now m] hs IH]; intros d Hd; [now split|].
    rewrite for_each_cons_trace, for_each_cons_after, thread_starts_app.
    cbv beta. cbn [fst snd].
    destruct (process_heartbeat_thread now m d) as [Ht Ha].
    rewrite Ht, Hd. destruct (IH _ Ha) as [-> ->]. now split. }
  destruct hs as [|[now m] hs].
  - split; [now destruct (_device_thread d)|congruence].
  - rewrite for_each_cons_trace, for_each_cons_after, thread_starts_app.
    cbv beta. cbn [fst snd].
    destruct (process_heartbeat_thread now m d) as [Ht Ha].
    destruct (Hrunning hs _ Ha) as [-> ->]. rewrite Ht.
    split; [now destruct (_device_thread d)|reflexivity].
Qed.

(** X14. As long as the unique id is unset, every heartbeat of a known
    target sends one more MAV_CMD_REQUEST_AUTOPILOT_CAPABILITIES command
    to that target: a run of heartbeats sends as many requests as it has
    heartbeats, all the same. Once the unique id is set, a heartbeat
    sends nothing. *)
Theorem capabilities_requested_on_every_heartbeat
  (hs : list (Z * mavlink_message_t)) (d : DeviceImpl) :
  _target_system_id d <> 0 ->
  sent (trace (process_heartbeats hs d)) =
  if _target_uuid d =? 0 then
    repeat
      (command_message MAV_CMD_REQUEST_AUTOPILOT_CAPABILITIES
         {| v := [float_1_0; float_NAN; float_NAN; float_NAN;
                  float_NAN; float_NAN; float_NAN] |} d)
      (length hs)
  else [].
Proof.
  unfold process_heartbeats. revert d.
  induction hs as [|[now m] hs IH]; intros d Hsys.
  - now destruct (_target_uuid d =? 0).
  - rewrite for_each_cons_trace, sent_app. cbv beta. cbn [fst snd].
    destruct (process_heartbeat_fields now m d) as (Hs & Hc & Hu & _).
    apply Z.eqb_neq in Hsys. rewrite Hsys in Hs, Hc.
    rewrite IH by (rewrite Hs; now apply Z.eqb_neq).
    rewrite Hu. unfold command_message at 1. rewrite Hs, Hc.
    fold (command_message MAV_CMD_REQUEST_AUTOPILOT_CAPABILITIES
            {| v := [float_1_0; float_NAN; float_NAN; float_NAN;
                     float_NAN; float_NAN; float_NAN] |} d).
    rewrite process_heartbeat_run. cbv zeta. cbn [trace snd].
    rewrite Hsys, sent_app, send_command_trace.
    assert (Hn : no_device d = false)
      by (unfold no_device; now rewrite Hsys).
    rewrite Hn.
    destruct (_target_uuid d =? 0); destruct (_device_thread d); reflexivity.
Qed.

(** X15. The first heartbeat of a device whose target ids and unique id
    are unset: unless the sender's system id and component id are both
    zero, the capabilities request goes to that sender, and
    [send_command] no longer answers NO_DEVICE; if both are zero nothing
    is sent and the target stays unknown. *)
Theorem first_heartbeat_addresses_its_sender (now : Z)
  (message : mavlink_message_t) (d : DeviceImpl) :
  _target_system_id d = 0 ->
  _target_uuid d = 0 ->
  let r := process_heartbeat now message d in
  no_device (after r) = (sysid message =? 0) && (compid message =? 0)
  /\ sent (trace r) =
     if (sysid message =? 0) && (compid message =? 0) then []
     else [mavlink_msg_command_long_pack _own_system_id _own_component_id
             (sysid message) (compid message)
             MAV_CMD_REQUEST_AUTOPILOT_CAPABILITIES 0
             [float_1_0; float_NAN; float_NAN; float_NAN;
              float_NAN; float_NAN; float_NAN]].
Proof.
  intros Hs Hu r. subst r. split.
  - destruct (process_heartbeat_fields now message d) as (Hs' & Hc' & _).
    rewrite Hs, Z.eqb_refl in Hs', Hc'. unfold no_device.
    now rewrite Hs', Hc'.
  - rewrite process_heartbeat_run. cbv zeta. cbn [trace snd].
    rewrite Hs, Hu, Z.eqb_refl, sent_app, send_command_trace.
    unfold no_device, command_message.
    cbn [_target_system_id _target_component_id set_target_ids v].
    destruct ((sysid message =? 0) && (compid message =? 0));
      destruct (_device_thread d); reflexivity.
Qed.

(** X16. The handlers keep to their own fields: a heartbeat, a capability
    report, the heartbeat check and the timeout check leave the command
    state, the stored result and the pending callback as they are, and an
    acknowledgement leaves the target ids, the unique id, the timeout
    handler map and the heartbeat flag as they are. *)
Theorem handlers_keep_to_their_fields (now : Z)
  (message : mavlink_message_t) (d : DeviceImpl) :
  let command_fields := fun x =>
    (_command_state x, _command_result x, _command_result_callback x) in
  let other_fields := fun x =>
    (_target_system_id x, _target_component_id x, _target_uuid x,
     _timeout_handler_map x, _heartbeat_timed_out x,
     _last_heartbeat_received_time x) in
  command_fields (after (process_heartbeat now message d)) = command_fields d
  /\ command_fields (after (process_autopilot_version message d))
     = command_fields d
  /\ command_fields (after (check_heartbeat_timeout now d)) = command_fields d
  /\ command_fields (after (check_timeouts now d)) = command_fields d
  /\ other_fields (after (process_command_ack message d)) = other_fields d.
Proof.
  intros command_fields other_fields. subst command_fields other_fields.
  cbv beta. repeat split.
  - rewrite process_heartbeat_run. cbv zeta. cbn [after fst snd].
    destruct (_target_system_id d =? 0); destruct (_device_thread d);
      reflexivity.
  - rewrite process_autopilot_version_run. cbv zeta.
    destruct (_target_uuid d =? 0); [reflexivity|].
    destruct (negb _); reflexivity.
  - rewrite check_heartbeat_timeout_run.
    destruct (_ && _); reflexivity.
  - rewrite check_timeouts_run. reflexivity.
  - destruct (CommandState_eqb (_command_state d) WAITING) eqn:E.
    + rewrite process_command_ack_taken; [reflexivity|].
      destruct (_command_state d); simpl in E; congruence.
    + rewrite process_command_ack_ignored; [reflexivity|].
      intro H. rewrite H in E. discriminate.
Qed.

Lemma land_4_testbit (x : Z) :
  negb (Z.land x MAV_PROTOCOL_CAPABILITY_MISSION_INT =? 0) = Z.testbit x 2.
Proof.
  assert (H : Z.land x (2 ^ 2) = if Z.testbit x 2 then 2 ^ 2 else 0).
  { apply Z.bits_inj'. intros i Hi.
    rewrite Z.land_spec, Z.pow2_bits_eqb by lia.
    destruct (2 =? i) eqn:E.
    - apply Z.eqb_eq in E. subst i. rewrite andb_true_r.
      destruct (Z.testbit x 2); [|now rewrite Z.bits_0].
      rewrite Z.pow2_bits_eqb by lia. reflexivity.
    - rewrite andb_false_r.
      destruct (Z.testbit x 2); [|now rewrite Z.bits_0].
      rewrite Z.pow2_bits_eqb by lia. now rewrite E. }
  change MAV_PROTOCOL_CAPABILITY_MISSION_INT with (2 ^ 2). rewrite H.
  now destruct (Z.testbit x 2).
Qed.

(** X17. [_target_supports_mission_int] is bit 2 (the value 4,
    MAV_PROTOCOL_CAPABILITY_MISSION_INT) of the capabilities of the report
    that sets the unique id, and no later report changes it, whatever
    capabilities it carries. *)
Theorem mission_int_from_first_report (message : mavlink_message_t)
  (ms : list mavlink_message_t) (d : DeviceImpl) :
  _target_uuid d = 0 ->
  uid (mavlink_msg_autopilot_version_decode message) <> 0 ->
  _target_supports_mission_int
    (after (process_autopilot_versions (message :: ms) d))
  = Z.testbit (capabilities (mavlink_msg_autopilot_version_decode message)) 2.
Proof.
  intros Hunset Hu. unfold process_autopilot_versions.
  rewrite for_each_cons_after, process_autopilot_version_run. cbv zeta.
  rewrite Hunset, Z.eqb_refl. cbn [after fst snd].
  pose proof (process_autopilot_versions_set ms
                (set_target_uuid
                   (uid (mavlink_msg_autopilot_version_decode message))
                   (negb (Z.land
                            (capabilities
                               (mavlink_msg_autopilot_version_decode message))
                            MAV_PROTOCOL_CAPABILITY_MISSION_INT =? 0)) d) Hu)
    as Hrest.
  unfold process_autopilot_versions in Hrest. rewrite Hrest.
  cbn [fst snd _target_supports_mission_int set_target_uuid].
  apply land_4_testbit.
Qed.

(** X18. A capability report with unique id zero, handled while the
    unique id is unset, is taken for a discovery all the same: the parent
    is notified of id 0 at every such report, and the unique id stays
    unset. *)
Theorem zero_uid_reports_notify_each_time (ms : list mavlink_message_t)
  (d : DeviceImpl) :
  _target_uuid d = 0 ->
  Forall (fun m => uid (mavlink_msg_autopilot_version_decode m) = 0) ms ->
  let r := process_autopilot_versions ms d in
  trace r = repeat (NotifyOnDiscover 0) (length ms)
  /\ _target_uuid (after r) = 0.
Proof.
  intros Hunset Hall r. subst r. unfold process_autopilot_versions.
  revert d Hunset. induction Hall as [|m ms Hm Hall IH]; intros d Hunset;
    [now split|].
  rewrite for_each_cons_trace, for_each_cons_after.
  rewrite process_autopilot_version_run. cbv zeta.
  rewrite Hunset, Z.eqb_refl, Hm. cbn [after trace fst snd].
  destruct (IH (set_target_uuid 0
                  (negb (Z.land
                           (capabilities
                              (mavlink_msg_autopilot_version_decode m))
                           MAV_PROTOCOL_CAPABILITY_MISSION_INT =? 0)) d)
              eq_refl) as [Ht Hu].
  cbn [after trace fst snd] in Ht, Hu. rewrite Ht, Hu. now split.
Qed.

End Identification.

(** ** More on the timeout handlers *)

Section TimeoutHandlers.

Context {env : Collaborators}.

Import StdMap StdMapFacts.

Lemma erase_insert (k : Z) (e : TimeoutHandlerMapEntry) (m : StdMap.t) :
  erase k (insert k e m) = erase k m.
Proof.
  unfold erase. induction m as [|[k1 e1] m IH]; cbn [insert filter fst].
  - now rewrite Z.eqb_refl.
  - destruct (k <? k1).
    + cbn [filter fst]. now rewrite Z.eqb_refl.
    + destruct (k =? k1); [reflexivity|].
      cbn [filter fst]. now rewrite IH.
Qed.

(** X19. A cookie without an entry: [unregister_timeout_handler] and
    [update_timeout_handler] leave the object as it is and call nothing,
    and registering the cookie and unregistering it again gives back the
    map as it was. *)
Theorem timeout_handler_of_absent_cookie (now : Z) (cb : option nat)
  (cookie : Z) (d : DeviceImpl) :
  find cookie (_timeout_handler_map d) = None ->
  unregister_timeout_handler cookie d = (tt, d, [])
  /\ update_timeout_handler now cookie d = (tt, d, [])
  /\ _timeout_handler_map
       (after (unregister_timeout_handler cookie
                 (after (register_timeout_handler now cb cookie d))))
     = _timeout_handler_map d.
Proof.
  intro Habsent.
  rewrite unregister_timeout_handler_run, update_timeout_handler_run, Habsent.
  split; [reflexivity|]. split; [reflexivity|].
  rewrite unregister_timeout_handler_map, register_timeout_handler_run.
  cbn [after fst snd _timeout_handler_map set_timeout_handler_map].
  rewrite erase_insert. now apply erase_absent.
Qed.

Lemma take_expired_all_unexpired (now : Z) (m : StdMap.t) :
  Forall (fun kv => now <= time (snd kv)) m ->
  take_expired now m = (None, m).
Proof.
  induction 1 as [|[k e] m He Hall IH]; [reflexivity|].
  cbn [take_expired]. cbn [snd] in He.
  destruct (time e <? now) eqn:E; [apply Z.ltb_lt in E; lia|].
  now rewrite IH.
Qed.

Lemma take_expired_insert (now : Z) (k : Z) (e : TimeoutHandlerMapEntry)
  (m : StdMap.t) :
  find k m = None ->
  Forall (fun kv => now <= time (snd kv)) m ->
  take_expired now (insert k e m) =
  if time e <? now then (Some (k, e), m) else (None, insert k e m).
Proof.
  intros Hfind Hall. revert Hfind.
  induction Hall as [|[k1 e1] m He Hall IH]; intro Hfind;
    cbn [insert take_expired find] in *.
  - now destruct (time e <? now).
  - cbn [snd] in He. destruct (k1 =? k) eqn:E1; [discriminate|].
    assert (He1 : (time e1 <? now) = false) by (apply Z.ltb_ge; lia).
    destruct (k <? k1).
    + cbn [take_expired]. destruct (time e <? now); [reflexivity|].
      rewrite He1. now rewrite take_expired_all_unexpired.
    + rewrite Z.eqb_sym, E1. cbn [take_expired]. rewrite He1.
      rewrite (IH Hfind). now destruct (time e <? now).
Qed.

(** X20. A handler registered at time [t0] is due strictly after
    [t0 + _timeout_us]: with no other entry expired, a check at a time
    [t] beyond that calls its callback once and removes the entry, so
    that the map is as before the registration; a check at a time up to
    and including [t0 + _timeout_us] does nothing. *)
Theorem registered_handler_is_due_after_its_time (t0 t : Z) (cb : nat)
  (cookie : Z) (d : DeviceImpl) :
  find cookie (_timeout_handler_map d) = None ->
  Forall (fun kv => t <= time (snd kv)) (_timeout_handler_map d) ->
  let registered := after (register_timeout_handler t0 (Some cb) cookie d) in
  let r := check_timeouts t registered in
  if t0 + _timeout_us d <? t then
    trace r = [TimeoutCallback cookie cb]
    /\ _timeout_handler_map (after r) = _timeout_handler_map d
  else
    trace r = []
    /\ _timeout_handler_map (after r) = _timeout_handler_map registered.
Proof.
  intros Habsent Hall registered r. subst r registered.
  rewrite check_timeouts_run, register_timeout_handler_run.
  cbn [after trace fst snd _timeout_handler_map set_timeout_handler_map].
  rewrite (take_expired_insert t cookie _ _ Habsent Hall). cbn [time].
  destruct (t0 + _timeout_us d <? t); now split.
Qed.

Lemma take_expired_set_time (now tm : Z) (cookie : Z)
  (e : TimeoutHandlerMapEntry) (m : StdMap.t) :
  ordered m = true ->
  find cookie m = Some e ->
  Forall (fun kv => fst kv <> cookie -> now <= time (snd kv)) m ->
  take_expired now (set_time cookie tm m) =
  if tm <? now
  then (Some (cookie, {| time := tm; callback := callback e |}),
        erase cookie m)
  else (None, set_time cookie tm m).
Proof.
  intros Hord Hfind Hall. revert Hord Hfind.
  induction Hall as [|[k1 e1] m He Hall IH]; intros Hord Hfind;
    [discriminate|].
  cbn [set_time find fst snd] in *.
  pose proof Hord as Hord0.
  apply ordered_cons in Hord. destruct Hord as [Hlt Hord].
  destruct (k1 =? cookie) eqn:E1.
  - apply Z.eqb_eq in E1. subst k1. injection Hfind as ->.
    cbn [take_expired time]. rewrite (erase_head _ _ _ Hord0).
    destruct (tm <? now); [reflexivity|].
    rewrite take_expired_all_unexpired; [reflexivity|].
    clear IH Hord0 Hord He.
    induction Hall as [|[k2 e2] m He2 Hall IH2]; constructor.
    + apply He2. cbn [fst]. specialize (Hlt k2 (or_introl eq_refl)). lia.
    + apply IH2. intros k' Hin. apply Hlt. now right.
  - apply Z.eqb_neq in E1.
    assert (He1 : (time e1 <? now) = false)
      by (apply Z.ltb_ge; now apply He).
    cbn [take_expired]. rewrite He1, (IH Hord Hfind).
    unfold erase. cbn [filter fst].
    assert (Hne : (k1 =? cookie) = false) by now apply Z.eqb_neq.
    rewrite Hne. cbn [negb]. now destruct (tm <? now).
Qed.

(** X21. [update_timeout_handler] at time [t1] moves the due time of the
    cookie's handler to [t1 + _timeout_us], whatever it was: with no
    entry of another cookie expired, a check at a time [t] beyond that
    calls the callback the entry was registered with and erases the
    entry, and a check up to and including that time does nothing. *)
Theorem updated_handler_is_due_after_its_new_time (t1 t : Z) (cookie : Z)
  (e : TimeoutHandlerMapEntry) (d : DeviceImpl) :
  ordered (_timeout_handler_map d) = true ->
  find cookie (_timeout_handler_map d) = Some e ->
  Forall (fun kv => fst kv <> cookie -> t <= time (snd kv))
    (_timeout_handler_map d) ->
  let updated := after (update_timeout_handler t1 cookie d) in
  let r := check_timeouts t updated in
  if t1 + _timeout_us d <? t then
    trace r = match callback e with
              | Some cb => [TimeoutCallback cookie cb]
              | None => []
              end
    /\ _timeout_handler_map (after r) = erase cookie (_timeout_handler_map d)
  else
    trace r = []
    /\ _timeout_handler_map (after r) = _timeout_handler_map updated.
Proof.
  intros Hord Hfind Hall updated r. subst r updated.
  rewrite check_timeouts_run, update_timeout_handler_run, Hfind.
  cbn [after trace fst snd _timeout_handler_map set_timeout_handler_map].
  rewrite (take_expired_set_time t _ cookie e _ Hord Hfind Hall).
  destruct (t1 + _timeout_us d <? t); now split.
Qed.

Lemma take_expired_no_expired (now : Z) (m : StdMap.t) :
  expired now m = [] ->
  take_expired now m = (None, m) /\ unexpired now m = m.
Proof.
  unfold expired, unexpired.
  induction m as [|[k e] m IH]; cbn [filter take_expired snd]; [now split|].
  destruct (time e <? now); [discriminate|]. intro H.
  destruct (IH H) as [-> ->]. now split.
Qed.

Lemma take_expired_first_expired (now : Z) (m : StdMap.t)
  (x : Z * TimeoutHandlerMapEntry) (xs : StdMap.t) :
  expired now m = x :: xs ->
  fst (take_expired now m) = Some x
  /\ expired now (snd (take_expired now m)) = xs
  /\ unexpired now (snd (take_expired now m)) = unexpired now m.
Proof.
  unfold expired, unexpired.
  induction m as [|[k e] m IH]; cbn [filter take_expired snd]; [discriminate|].
  destruct (time e <? now) eqn:E; cbn [negb].
  - intros [= <- <-]. cbn [fst snd]. repeat split.
  - intro H. destruct (IH H) as (Hf & Hx & Hu).
    destruct (take_expired now m) as [found rest]. cbn [fst snd] in *.
    cbn [filter snd]. rewrite E. cbn [negb]. rewrite Hx, Hu. repeat split.
    exact Hf.
Qed.

(** X22. Expired handlers are called one per check, in the order of their
    cookies: [n] checks at the same time call the callbacks of the first
    [n] expired entries (a null callback is skipped, its entry erased all
    the same), and once [n] reaches the number of expired entries the map
    holds exactly the entries that are not expired, in their order. *)
Theorem check_timeouts_drains_one_per_call (now : Z) (n : nat) :
  forall d : DeviceImpl,
  let m := _timeout_handler_map d in
  let r := for_each check_timeouts (repeat now n) d in
  trace r = timeout_callbacks (firstn n (expired now m))
  /\ ((length (expired now m) <= n)%nat ->
      _timeout_handler_map (after r) = unexpired now m).
Proof.
  induction n as [|n IH]; intros d m r; subst r m.
  - cbn [repeat for_each firstn timeout_callbacks]. split; [reflexivity|].
    intro Hlen. destruct (expired now (_timeout_handler_map d)) eqn:E;
      [|cbn [length] in Hlen; lia].
    symmetry. now apply take_expired_no_expired.
  - cbn [repeat]. rewrite for_each_cons_trace, for_each_cons_after.
    rewrite check_timeouts_run. cbn [after trace fst snd].
    specialize (IH (set_timeout_handler_map
                      (snd (take_expired now (_timeout_handler_map d))) d)).
    cbv zeta in IH.
    cbn [_timeout_handler_map set_timeout_handler_map] in IH.
    destruct IH as [IHt IHm].
    destruct (expired now (_timeout_handler_map d)) as [|[k e] xs] eqn:E.
    + destruct (take_expired_no_expired now _ E) as [Hte Hun].
      rewrite Hte in *. cbn [fst snd] in *. rewrite E in IHt, IHm.
      rewrite IHt. rewrite firstn_nil. split; [reflexivity|].
      intros _. rewrite IHm by (cbn; lia). reflexivity.
    + destruct (take_expired_first_expired now _ _ _ E) as (Hf & Hx & Hu).
      rewrite Hf, Hx, Hu in *.
      rewrite IHt. cbn [firstn timeout_callbacks].
      split; [now destruct (callback e)|].
      intro Hlen. cbn [length] in Hlen. apply IHm. lia.
Qed.

End TimeoutHandlers.

(** ** The device thread *)

Section DeviceThreadFacts.

Context {env : Collaborators} {hb : HeartbeatCodec}.

Lemma device_thread_iteration_sent (counter : Z) (t : Tick) (d : DeviceImpl) :
  value (device_thread_iteration counter t d) = (counter + 1) mod 2 ^ 32
  /\ sent (trace (device_thread_iteration counter t d)) =
     if counter mod heartbeat_multiplier =? 0
     then [mavlink_msg_heartbeat_pack _own_system_id _own_component_id
             MAV_TYPE_GCS 0 0 0 0]
     else [].
Proof.
  unfold device_thread_iteration, send_heartbeat, send_message.
  cbv beta iota delta [bind get assign ret call].
  destruct (counter mod heartbeat_multiplier =? 0);
    rewrite check_timeouts_run, check_heartbeat_timeout_run;
    destruct (fst (take_expired (timeouts_now t) (_timeout_handler_map d)))
      as [[k e]|];
    try destruct (callback e);
    match goal with
    | |- context [if ?b then (tt, _, _) else _] => destruct b
    end;
    split; reflexivity.
Qed.

Lemma device_thread_loop_cons (t : Tick) (ticks : list Tick) (counter : Z)
  (d : DeviceImpl) :
  should_exit t = false ->
  let it := device_thread_iteration counter t d in
  value (device_thread_loop (t :: ticks) counter d)
  = value (device_thread_loop ticks (value it) (after it))
  /\ trace (device_thread_loop (t :: ticks) counter d)
     = trace it ++ trace (device_thread_loop ticks (value it) (after it)).
Proof.
  intros Ht it. cbn [device_thread_loop]. rewrite Ht, bind_run.
  fold it. split; reflexivity.
Qed.

Lemma device_thread_loop_sent (ticks : list Tick) :
  forall (counter : Z) (d : DeviceImpl),
  Forall (fun t => should_exit t = false) ticks ->
  0 <= counter < 2 ^ 32 ->
  counter + Z.of_nat (length ticks) <= 2 ^ 32 ->
  value (device_thread_loop ticks counter d)
  = (counter + Z.of_nat (length ticks)) mod 2 ^ 32
  /\ sent (trace (device_thread_loop ticks counter d)) =
     repeat
       (mavlink_msg_heartbeat_pack _own_system_id _own_component_id
          MAV_TYPE_GCS 0 0 0 0)
       (heartbeats_due counter (length ticks)).
Proof.
  induction ticks as [|t ticks IH]; intros counter d Hall Hc Hlen.
  - cbn [length Z.of_nat device_thread_loop heartbeats_due repeat].
    split; [|reflexivity].
    unfold ret, value; cbn [fst]. rewrite Z.add_0_r.
    symmetry. now apply Z.mod_small.
  - inversion Hall as [|? ? Ht Hall']; subst.
    destruct (device_thread_loop_cons t ticks counter d Ht) as [Hv Htr].
    cbv zeta in Hv, Htr. rewrite Hv, Htr, sent_app.
    destruct (device_thread_iteration_sent counter t d) as [Hiv His].
    rewrite His, Hiv. cbn [length heartbeats_due].
    cbn [length] in Hlen. rewrite Nat2Z.inj_succ in Hlen |- *.
    destruct ticks as [|t' ticks'].
    + cbn [device_thread_loop length Z.of_nat heartbeats_due].
      unfold ret, value, trace; cbn [fst snd sent].
      split; [f_equal; lia|].
      destruct (counter mod heartbeat_multiplier =? 0); reflexivity.
    + assert (Hpos : 1 <= Z.of_nat (length (t' :: ticks')))
        by (cbn [length]; lia).
      assert (Hsmall : (counter + 1) mod 2 ^ 32 = counter + 1)
        by (apply Z.mod_small; lia).
      rewrite Hsmall.
      destruct (IH (counter + 1) (after (device_thread_iteration counter t d))
                  Hall') as [IHv IHs]; [lia|lia|].
      rewrite IHv, IHs. split; [f_equal; lia|].
      destruct (counter mod heartbeat_multiplier =? 0); reflexivity.
Qed.

Lemma heartbeats_due_closed (n : nat) :
  forall counter : Z,
  0 <= counter ->
  Z.of_nat (heartbeats_due counter n)
  = (counter + Z.of_nat n + 99) / 100 - (counter + 99) / 100.
Proof.
  induction n as [|n IH]; intros counter Hc.
  - cbn [heartbeats_due Z.of_nat]. rewrite Z.add_0_r. lia.
  - cbn [heartbeats_due]. rewrite Nat2Z.inj_add, IH by lia.
    rewrite Nat2Z.inj_succ.
    change heartbeat_multiplier with 100.
    replace (counter + 1 + Z.of_nat n + 99)
      with (counter + Z.succ (Z.of_nat n) + 99) by lia.
    assert (Hstep : (counter + 1 + 99) / 100 - (counter + 99) / 100
                    = Z.of_nat (if counter mod 100 =? 0 then 1 else 0)).
    { destruct (counter mod 100 =? 0) eqn:E.
      - apply Z.eqb_eq in E. cbn [Z.of_nat Pos.of_succ_nat].
        Z.div_mod_to_equations. lia.
      - apply Z.eqb_neq in E. cbn [Z.of_nat].
        Z.div_mod_to_equations. lia. }
    lia.
Qed.

(** X23. The device thread sends one heartbeat in every hundred
    iterations, starting with the first: run from its start for any
    number of iterations up to 2^32, with no exit asked for, it sends
    its heartbeat message - and no other message - once for every
    started hundred. *)
Theorem device_thread_heartbeat_cadence (ticks : list Tick) (d : DeviceImpl) :
  Forall (fun t => should_exit t = false) ticks ->
  Z.of_nat (length ticks) <= 2 ^ 32 ->
  sent (trace (device_thread ticks d)) =
  repeat
    (mavlink_msg_heartbeat_pack _own_system_id _own_component_id
       MAV_TYPE_GCS 0 0 0 0)
    (Z.to_nat ((Z.of_nat (length ticks) + 99) / 100)).
Proof.
  intros Hall Hlen. unfold device_thread.
  destruct (device_thread_loop_sent ticks 0 d Hall) as [_ ->]; [lia|lia|].
  f_equal. apply Nat2Z.inj.
  rewrite heartbeats_due_closed by lia.
  rewrite Z2Nat.id; [cbn; lia|].
  apply Z.div_pos; lia.
Qed.

(** X24. The loop of the device thread ends at the first iteration that
    reads [_should_exit] as true: that iteration and everything after it
    does nothing. *)
Theorem device_thread_stops_at_exit (ticks ticks' : list Tick) (t : Tick) :
  forall (counter : Z) (d : DeviceImpl),
  should_exit t = true ->
  device_thread_loop (ticks ++ t :: ticks') counter d
  = device_thread_loop ticks counter d.
Proof.
  induction ticks as [|a ticks IH]; intros counter d Ht;
    cbn [app device_thread_loop].
  - now rewrite Ht.
  - destruct (should_exit a); [reflexivity|].
    unfold bind. destruct (device_thread_iteration counter a d) as [[c d1] e1].
    now rewrite IH.
Qed.

End DeviceThreadFacts.

(** ** The further theorems at concrete inputs *)

Module MoreRuns.

(** X6 at the constructor's table of object 100 with one handler (3) of
    owner 500 for acknowledgements, after the destructor: an
    acknowledgement reaches handler 3 only, though the device waits. *)
Lemma dispatch_after_destructor :
  let table :=
    HandlerTable.register_mavlink_message_handler MAVLINK_MSG_ID_COMMAND_ACK
      (HandlerTable.other_handler 3) 500 (DeviceImpl_handlers 100) in
  let d := set_command_state WAITING paired in
  let r := process_mavlink_message (env := loopback true)
             (HandlerTable.unregister_all_mavlink_message_handlers 100 table)
             7 (ack_message MAV_RESULT_ACCEPTED) d in
  fst r = d
  /\ snd r = map (fun p => HandlerTable.OtherHandler (fst p) (snd p)) (HandlerTable.other_calls (snd r)).
Proof.
  apply (process_mavlink_message_after_destructor (env := loopback true)).
  intros e [<-|[<-|[<-|[<-|[]]]]] Hne; cbn in Hne; try congruence.
  exists 3%nat. reflexivity.
Defined.

(** X7 at a table where handler 3 was registered twice by owner 500. *)
Lemma dispatch_after_unregister_all :
  let table :=
    HandlerTable.register_mavlink_message_handler MAVLINK_MSG_ID_COMMAND_ACK
      (HandlerTable.other_handler 3) 500
      (HandlerTable.register_mavlink_message_handler MAVLINK_MSG_ID_COMMAND_ACK
         (HandlerTable.other_handler 3) 500 (DeviceImpl_handlers 100)) in
  ~ In (3%nat, ack_message MAV_RESULT_ACCEPTED)
      (HandlerTable.other_calls
         (snd (process_mavlink_message (env := loopback true)
                 (HandlerTable.unregister_all_mavlink_message_handlers 500 table)
                 7 (ack_message MAV_RESULT_ACCEPTED) paired))).
Proof.
  apply (unregistered_handler_is_not_called (env := loopback true)).
  intros e [<-|[<-|[<-|[<-|[<-|[]]]]]] Hcb; cbn in Hcb; try discriminate;
    reflexivity.
Defined.

(** X8 at a device with target 1/1 and no acknowledgement at all. *)
Lemma send_command_with_ack_without_ack :
  let r := send_command_with_ack (env := loopback true) no_arrivals
             MAV_CMD_SET_MESSAGE_INTERVAL rate_params paired in
  value r = TIMEOUT
  /\ _command_state (after r) = NONE
  /\ _command_result (after r) = MAV_RESULT_FAILED
  /\ trace r =
     [SendMessage (command_message (env := loopback true)
                     MAV_CMD_SET_MESSAGE_INTERVAL rate_params paired)].
Proof.
  apply (send_command_with_ack_times_out (env := loopback true) no_arrivals
           MAV_CMD_SET_MESSAGE_INTERVAL rate_params paired);
    try reflexivity; discriminate.
Defined.

(** X9 with a denied and then an accepted acknowledgement in the first
    sleep: the call is denied. *)
Lemma send_command_with_ack_with_two_acks :
  let arrivals :=
    {| before_wait := [];
       during_sleep := fun i =>
         if Nat.eqb i 0
         then [ack_message MAV_RESULT_FAILED; ack_message MAV_RESULT_ACCEPTED]
         else [] |} in
  let r := send_command_with_ack (env := loopback true) arrivals
             MAV_CMD_SET_MESSAGE_INTERVAL rate_params paired in
  value r = COMMAND_DENIED
  /\ _command_result (after r) = MAV_RESULT_FAILED
  /\ _command_state (after r) = NONE
  /\ trace r =
     [SendMessage (command_message (env := loopback true)
                     MAV_CMD_SET_MESSAGE_INTERVAL rate_params paired)].
Proof.
  intros arrivals r.
  apply (send_command_with_ack_first_ack_decides (env := loopback true)
           arrivals MAV_CMD_SET_MESSAGE_INTERVAL rate_params paired
           (ack_message MAV_RESULT_FAILED));
    try reflexivity; discriminate.
Defined.

(** X10 at a new device (target unknown) and at a link that is down. *)
Lemma send_command_with_ack_async_failures :
  let r := send_command_with_ack_async (env := loopback true)
             MAV_CMD_SET_MESSAGE_INTERVAL rate_params (Some 9%nat) fresh in
  let r' := send_command_with_ack_async (env := loopback false)
              MAV_CMD_SET_MESSAGE_INTERVAL rate_params (Some 9%nat) paired in
  (sent (trace r) = [] /\ reported (trace r) = [(9%nat, NO_DEVICE)]
   /\ after r = set_command_state NONE fresh)
  /\ (reported (trace r') = [(9%nat, CONNECTION_ERROR)]
      /\ _command_state (after r') = NONE).
Proof.
  intros r r'. split.
  - apply (send_command_with_ack_async_when_free (env := loopback true)
             MAV_CMD_SET_MESSAGE_INTERVAL rate_params (Some 9%nat) fresh).
    discriminate.
  - destruct (send_command_with_ack_async_when_free (env := loopback false)
                MAV_CMD_SET_MESSAGE_INTERVAL rate_params (Some 9%nat) paired)
      as (_ & Hrep & Hafter); [discriminate|].
    split; [exact Hrep|]. subst r'. rewrite Hafter. reflexivity.
Defined.



(** X14 at three heartbeats of an identified target whose capability
    report has not come: three requests. *)
Lemma three_heartbeats_three_requests :
  length (sent (trace (process_heartbeats (env := loopback true)
                         [(10, heartbeat_message 1 1);
                          (20, heartbeat_message 1 1);
                          (30, heartbeat_message 1 1)] paired))) = 3%nat.
Proof.
  rewrite (capabilities_requested_on_every_heartbeat (env := loopback true)
             [(10, heartbeat_message 1 1); (20, heartbeat_message 1 1);
              (30, heartbeat_message 1 1)] paired);
    [reflexivity|discriminate].
Defined.

(** X15 at a new device: a heartbeat of system 0, component 5 makes the
    request go to 0/5; one of 0/0 sends nothing. *)
Lemma first_heartbeat_of_system_zero :
  let r := process_heartbeat (env := loopback true) 10
             (heartbeat_message 0 5) fresh in
  let r' := process_heartbeat (env := loopback true) 10
              (heartbeat_message 0 0) fresh in
  (no_device (after r) = false /\ length (sent (trace r)) = 1%nat)
  /\ (no_device (after r') = true /\ sent (trace r') = []).
Proof.
  intros r r'. split.
  - destruct (first_heartbeat_addresses_its_sender (env := loopback true)
                10 (heartbeat_message 0 5) fresh eq_refl eq_refl)
      as [Hn Hs].
    split; [exact Hn|]. subst r. rewrite Hs. reflexivity.
  - apply (first_heartbeat_addresses_its_sender (env := loopback true)
             10 (heartbeat_message 0 0) fresh eq_refl eq_refl).
Defined.

(** X17 at a first report with capabilities 4 and a later one with 0. *)
Lemma mission_int_kept :
  _target_supports_mission_int
    (after (process_autopilot_versions (env := loopback true)
              [version_message 4 5; version_message 0 6] fresh)) = true.
Proof.
  rewrite (mission_int_from_first_report (env := loopback true)
             (version_message 4 5) [version_message 0 6] fresh);
    [reflexivity|reflexivity|discriminate].
Defined.

(** X18 at two reports with uid 0. *)
Lemma two_zero_uid_reports :
  let r := process_autopilot_versions (env := loopback true)
             [version_message 4 0; version_message 0 0] fresh in
  trace r = [NotifyOnDiscover 0; NotifyOnDiscover 0]
  /\ _target_uuid (after r) = 0.
Proof.
  apply (zero_uid_reports_notify_each_time (env := loopback true)
           [version_message 4 0; version_message 0 0] fresh);
    [reflexivity|repeat constructor].
Defined.

(** X19 at a new device and cookie 42. *)
Lemma unregister_unknown_cookie :
  unregister_timeout_handler 42 fresh = (tt, fresh, [])
  /\ update_timeout_handler 1000 42 fresh = (tt, fresh, [])
  /\ _timeout_handler_map
       (after (unregister_timeout_handler 42
                 (after (register_timeout_handler 0 (Some 7%nat) 42 fresh))))
     = [].
Proof.
  apply (timeout_handler_of_absent_cookie 1000 (Some 7%nat) 42 fresh).
  reflexivity.
Defined.

(** X20 at a handler registered at time 0 with timeout 500000: not due at
    500000, due at 500001. *)
Lemma handler_due_strictly_after :
  let registered :=
    after (register_timeout_handler 0 (Some 7%nat) 42 fresh) in
  trace (check_timeouts 500000 registered) = []
  /\ trace (check_timeouts 500001 registered) = [TimeoutCallback 42 7].
Proof.
  intro registered. split.
  - apply (registered_handler_is_due_after_its_time 0 500000 7%nat 42 fresh
             eq_refl (Forall_nil _)).
  - apply (registered_handler_is_due_after_its_time 0 500001 7%nat 42 fresh
             eq_refl (Forall_nil _)).
Defined.

(** X21 at the same handler, updated at time 1000: not due at 500500. *)
Lemma updated_handler_not_due :
  let registered :=
    after (register_timeout_handler 0 (Some 7%nat) 42 fresh) in
  let updated := after (update_timeout_handler 1000 42 registered) in
  trace (check_timeouts 500500 registered) = [TimeoutCallback 42 7]
  /\ trace (check_timeouts 500500 updated) = []
  /\ trace (check_timeouts 501001 updated) = [TimeoutCallback 42 7].
Proof.
  intros registered updated.
  assert (Hall : forall t,
             Forall (fun kv => fst kv <> 42 -> t <= time (snd kv))
               (_timeout_handler_map registered)).
  { intro t. constructor; [|constructor]. cbn. congruence. }
  split; [reflexivity|]. split.
  - apply (updated_handler_is_due_after_its_new_time 1000 500500 42
             {| time := 500000; callback := Some 7%nat |} registered
             eq_refl eq_refl (Hall _)).
  - apply (updated_handler_is_due_after_its_new_time 1000 501001 42
             {| time := 500000; callback := Some 7%nat |} registered
             eq_refl eq_refl (Hall _)).
Defined.

(** X23 at 250 iterations: three heartbeats. *)
Lemma heartbeats_of_250_iterations :
  let tick := {| should_exit := false; timeouts_now := 0;
                 heartbeat_now := 0 |} in
  length (sent (trace (device_thread (env := loopback true)
                         (hb := loopback_heartbeat)
                         (repeat tick 250) paired))) = 3%nat.
Proof.
  intro tick.
  rewrite (device_thread_heartbeat_cadence (env := loopback true)
             (hb := loopback_heartbeat) (repeat tick 250) paired).
  - reflexivity.
  - apply Forall_forall. intros t Hin. apply repeat_spec in Hin.
    subst t. reflexivity.
  - rewrite repeat_length. discriminate.
Defined.

(** X24 at a loop that is asked to exit in its second iteration. *)
Lemma device_thread_with_exit :
  let tick := {| should_exit := false; timeouts_now := 0;
                 heartbeat_now := 0 |} in
  let stop := {| should_exit := true; timeouts_now := 0;
                 heartbeat_now := 0 |} in
  device_thread_loop (env := loopback true) (hb := loopback_heartbeat)
    ([tick] ++ stop :: [tick; tick]) 0 paired
  = device_thread_loop (env := loopback true) (hb := loopback_heartbeat)
      [tick] 0 paired.
Proof.
  intros tick stop.
  apply (device_thread_stops_at_exit (env := loopback true)
           (hb := loopback_heartbeat) [tick] [tick; tick] stop 0 paired).
  reflexivity.
Defined.

End MoreRuns.
